(** * Version classification of Salt minions (python/main.py)

    A shallow embedding of [parse_version] and [filter_by_version] together
    with the Python built-ins they rely on ([str.split], [int], [in],
    [dict.get], the formatting of integers), followed by the properties of the
    classification that the design document states. *)

From stdpp Require Import base gmap strings.
From Stdlib Require Import ZArith NArith List Ascii String Bool Lia.
Import ListNotations.

Local Set Warnings "-register-all".
Local Open Scope string_scope.
Local Open Scope Z_scope.

(** ** Python values

    Strings are sequences of code points below 256; integers are unbounded.
    [PyInt] also stands for JSON reals: none of the operations used by the
    program ([in], [.get], [.split]) is defined on either kind of number.
    A record of the inventory is looked up by key only, hence a [gmap]; the
    inventory itself is iterated, hence an association list in insertion
    order (see [filter_by_version]). *)

Inductive py_value : Type :=
| PyNone
| PyBool (b : bool)
| PyInt (n : Z)
| PyStr (s : string)
| PyList (items : list py_value)
| PyDict (d : gmap string py_value).

Inductive exn : Type :=
| ValueError
| AttributeError
| TypeError
| IndexError.

Inductive result (A : Type) : Type :=
| Ok (a : A)
| Raise (e : exn).

Arguments Ok {A} a.
Arguments Raise {A} e.

(** ** Computations

    A computation yields an outcome and the list of arguments with which
    [parse_version] was entered, in call order.  An exception stops the
    computation and keeps the calls made so far. *)

Module Py.

Definition t (A : Type) : Type := (list py_value * result A)%type.

Definition ret {A} (a : A) : t A := ([], Ok a).

Definition raise {A} (e : exn) : t A := ([], Raise e).

Definition entered (arg : py_value) : t unit := ([arg], Ok tt).

Definition bind {A B} (m : t A) (k : A -> t B) : t B :=
  match m with
  | (log, Ok a) => let (log', r) := k a in ((log ++ log')%list, r)
  | (log, Raise e) => (log, Raise e)
  end.

Definition outcome {A} (m : t A) : result A := snd m.

Definition calls {A} (m : t A) : list py_value := fst m.

End Py.

Notation "x <- m ;; k" := (Py.bind m (fun x => k))
  (at level 62, m at next level, right associativity).

(** [list(filter(p, l))] and [list(map(f, l))] for a predicate or function
    that may raise: the elements are visited from left to right and the first
    exception ends the traversal. *)

Fixpoint py_filter {A} (p : A -> Py.t bool) (l : list A) : Py.t (list A) :=
  match l with
  | [] => Py.ret []
  | x :: l' =>
      b <- p x ;;
      rest <- py_filter p l' ;;
      Py.ret (if b then x :: rest else rest)
  end.

Fixpoint py_map {A B} (f : A -> Py.t B) (l : list A) : Py.t (list B) :=
  match l with
  | [] => Py.ret []
  | x :: l' =>
      y <- f x ;;
      rest <- py_map f l' ;;
      Py.ret (y :: rest)
  end.

(** ** Built-ins on strings *)

(** [s.split(".")]: the maximal dot-free pieces of [s], at least one. *)

Fixpoint split_pieces (s : string) : string * list string :=
  match s with
  | EmptyString => (EmptyString, [])
  | String c s' =>
      let (piece, pieces) := split_pieces s' in
      if Ascii.eqb c "." then (EmptyString, piece :: pieces)
      else (String c piece, pieces)
  end.

Definition split_dot (s : string) : list string :=
  let (piece, pieces) := split_pieces s in piece :: pieces.

Definition py_split (v : py_value) : Py.t (list string) :=
  match v with
  | PyStr s => Py.ret (split_dot s)
  | _ => Py.raise AttributeError
  end.

(** [parts[i]] *)
Definition py_getitem (parts : list string) (i : nat) : Py.t string :=
  match nth_error parts i with
  | Some p => Py.ret p
  | None => Py.raise IndexError
  end.

(** The characters [int] skips around a numeral: the C locale's white space
    and, of the code points from 128 to 255, NEL and the no-break space. *)
Definition is_space (c : ascii) : bool :=
  let n := N_of_ascii c in
  ((9 <=? n) && (n <=? 13) || (n =? 32) || (n =? 133) || (n =? 160))%N.

Definition is_digit (c : ascii) : bool :=
  let n := N_of_ascii c in ((48 <=? n) && (n <=? 57))%N.

Definition digit_value (c : ascii) : Z := Z.of_N (N_of_ascii c) - 48.

Fixpoint skip_spaces (s : string) : string :=
  match s with
  | String c s' => if is_space c then skip_spaces s' else s
  | EmptyString => EmptyString
  end.

Definition only_spaces (s : string) : bool :=
  match skip_spaces s with
  | EmptyString => true
  | String _ _ => false
  end.

(** The digits after the first one: each is either adjacent to the previous
    digit or separated from it by a single underscore.  Yields the value, the
    number of digits read and what follows them. *)
Fixpoint scan_digits (acc : Z) (digits : N) (s : string) : option (Z * N * string) :=
  match s with
  | EmptyString => Some (acc, digits, EmptyString)
  | String c s' =>
      if is_digit c then scan_digits (10 * acc + digit_value c) (digits + 1) s'
      else if Ascii.eqb c "_" then
        match s' with
        | String d s'' =>
            if is_digit d
            then scan_digits (10 * acc + digit_value d) (digits + 1) s''
            else None
        | EmptyString => None
        end
      else Some (acc, digits, s)
  end.

Definition take_sign (s : string) : bool * string :=
  match s with
  | String c s' =>
      if Ascii.eqb c "-" then (true, s')
      else if Ascii.eqb c "+" then (false, s')
      else (false, s)
  | EmptyString => (false, s)
  end.

(** [key in v] *)
Fixpoint is_substring (needle hay : string) : bool :=
  String.prefix needle hay ||
  match hay with
  | String _ hay' => is_substring needle hay'
  | EmptyString => false
  end.

Definition py_contains (v : py_value) (key : string) : Py.t bool :=
  match v with
  | PyDict d => Py.ret (bool_decide (is_Some (d !! key)))
  | PyStr s => Py.ret (is_substring key s)
  | PyList items =>
      Py.ret (existsb (fun x => match x with
                                | PyStr s => String.eqb key s
                                | _ => false
                                end) items)
  | PyNone | PyBool _ | PyInt _ => Py.raise TypeError
  end.

(** [v.get(key)] *)
Definition py_get (v : py_value) (key : string) : Py.t py_value :=
  match v with
  | PyDict d => Py.ret (match d !! key with Some x => x | None => PyNone end)
  | _ => Py.raise AttributeError
  end.

(** [str(n)], which is also how an f-string renders an integer field. *)
Definition digit_char (d : Z) : ascii := ascii_of_N (48 + Z.to_N d).

Fixpoint render_digits (fuel : nat) (n : Z) (acc : string) : string :=
  let acc' := String (digit_char (n mod 10)) acc in
  match fuel with
  | O => acc'
  | S fuel' => if n <? 10 then acc' else render_digits fuel' (n / 10) acc'
  end.

Definition py_str (n : Z) : string :=
  if n <? 0
  then String "-" (render_digits (Z.to_nat (- n)) (- n) EmptyString)
  else render_digits (Z.to_nat n) n EmptyString.

Section Interpreter.

(** [sys.get_int_max_str_digits()]: 0 when the interpreter has no limit on
    the length of a numeral, otherwise the limit (4300 unless configured). *)
Variable int_max_str_digits : N.

Definition too_many_digits (digits : N) : bool :=
  ((640 <? digits) && (0 <? int_max_str_digits) && (int_max_str_digits <? digits))%N.

(** [int(s)] for a string, base ten. *)
Definition int_of_string (s : string) : option Z :=
  let (negative, body) := take_sign (skip_spaces s) in
  match body with
  | String c rest =>
      if is_digit c then
        match scan_digits (digit_value c) 1 rest with
        | Some (v, digits, trailer) =>
            if too_many_digits digits then None
            else if only_spaces trailer then Some (if negative then - v else v)
            else None
        | None => None
        end
      else None
  | EmptyString => None
  end.

Definition py_int (s : string) : Py.t Z :=
  match int_of_string s with
  | Some z => Py.ret z
  | None => Py.raise ValueError
  end.

(** ** The program *)

(** [parse_version] (main.py, lines 5-9).  The first step records the call;
    it has no counterpart in the source and no influence on the outcome. *)
Definition parse_version (version_str : py_value) : Py.t (Z * Z) :=
  _ <- Py.entered version_str ;;
  parts <- py_split version_str ;;
  p0 <- py_getitem parts 0 ;;
  major <- py_int p0 ;;
  minor <- (if (1 <? List.length parts)%nat
            then p1 <- py_getitem parts 1 ;; py_int p1
            else Py.ret 0) ;;
  Py.ret (major, minor).

(** A one-entry dictionary [{minion: version}] is kept as the pair of its key
    and its value. *)
Definition format_minion (item : string * (Z * Z)) : string * string :=
  (fst item, py_str (fst (snd item)) ++ "." ++ py_str (snd (snd item))).

(** [filter_by_version] (main.py, lines 12-54).  Every [list(...)] of the
    source forces its [filter] or [map] at once, so the stages run in the
    order in which they are written. *)
Definition filter_by_version (max_version : string)
    (minion_data : list (string * py_value))
  : Py.t (list (string * string) * list (string * string) * list string) :=
  max_parsed <- parse_version (PyStr max_version) ;;
  let max_version_major := fst max_parsed in
  let max_version_minor := snd max_parsed in
  let all_minions := minion_data in
  unresponsive_items <-
    py_filter (fun item => b <- py_contains (snd item) "saltversion" ;;
                           Py.ret (negb b))
              all_minions ;;
  let unresponsive_minions := map fst unresponsive_items in
  responsive_minions <-
    py_filter (fun item => py_contains (snd item) "saltversion") all_minions ;;
  parsed_minions <-
    py_map (fun item => v <- py_get (snd item) "saltversion" ;;
                        parsed <- parse_version v ;;
                        Py.ret (fst item, parsed))
           responsive_minions ;;
  let updatable_minions :=
    map format_minion
        (List.filter (fun item => (fst (snd item) <? max_version_major)
                             && (snd (snd item) <? max_version_minor))
                parsed_minions) in
  let higher_version_minions :=
    map format_minion
        (List.filter (fun item => (fst (snd item) =? max_version_major)
                             && (snd (snd item) >? max_version_minor))
                parsed_minions) in
  Py.ret (updatable_minions, higher_version_minions, unresponsive_minions).

End Interpreter.

(** ** Reference notions used in the statements *)

(** Joining pieces with dots, the inverse of [split_dot]. *)
Fixpoint join_dot (pieces : list string) : string :=
  match pieces with
  | [] => EmptyString
  | [p] => p
  | p :: rest => p ++ String "." (join_dot rest)
  end.

Fixpoint has_char (c : ascii) (s : string) : bool :=
  match s with
  | EmptyString => false
  | String d s' => Ascii.eqb d c || has_char c s'
  end.

Fixpoint all_digits (s : string) : bool :=
  match s with
  | EmptyString => true
  | String c s' => is_digit c && all_digits s'
  end.

(** The number a string of decimal digits denotes, by position. *)
Fixpoint decimal_value (s : string) : Z :=
  match s with
  | EmptyString => 0
  | String c s' => digit_value c * 10 ^ Z.of_nat (String.length s') + decimal_value s'
  end.

(** A plain decimal numeral: digits only, at least one. *)
Definition numeral (s : string) : Prop :=
  all_digits s = true /\ s <> EmptyString.

(** A numeral without superfluous leading zeros. *)
Definition canonical (s : string) : Prop :=
  numeral s /\ (s = "0" \/ exists c s', s = String c s' /\ c <> "0"%char).

(** The value a computation yields, or [d] when it raises. *)
Definition force {A} (d : A) (m : Py.t A) : A :=
  match Py.outcome m with
  | Ok a => a
  | Raise _ => d
  end.

Definition holds (m : Py.t bool) : bool := force false m.

Definition succeeds {A} (m : Py.t A) : Prop := exists a, Py.outcome m = Ok a.

Section Notions.

Variable limit : N.

Definition version_key : string := "saltversion".

(** What the two membership tests of [filter_by_version] decide on a record. *)
Definition responsive (record : py_value) : bool :=
  holds (py_contains record version_key).

Definition unresponsive (record : py_value) : bool :=
  holds (b <- py_contains record version_key ;; Py.ret (negb b)).

(** The version field of a record, as [.get] returns it. *)
Definition version_field (record : py_value) : py_value :=
  force PyNone (py_get record version_key).

(** Reading and parsing the version of one minion. *)
Definition read_version (item : string * py_value) : Py.t (string * (Z * Z)) :=
  v <- py_get (snd item) version_key ;;
  parsed <- parse_version limit v ;;
  Py.ret (fst item, parsed).

Definition host_version (record : py_value) : result (Z * Z) :=
  Py.outcome (parse_version limit (version_field record)).

Definition version_or_zero (record : py_value) : Z * Z :=
  force (0, 0) (parse_version limit (version_field record)).

Definition below (max v : Z * Z) : bool :=
  (fst v <? fst max) && (snd v <? snd max).

Definition above (max v : Z * Z) : bool :=
  (fst v =? fst max) && (snd v >? snd max).

Definition is_updatable (max : Z * Z) (item : string * py_value) : bool :=
  responsive (snd item) && below max (version_or_zero (snd item)).

Definition is_higher (max : Z * Z) (item : string * py_value) : bool :=
  responsive (snd item) && above max (version_or_zero (snd item)).

Definition rendered (item : string * py_value) : string * string :=
  format_minion (fst item, version_or_zero (snd item)).

End Notions.

(** [parse_version] on the pieces of a string, with the sequencing of the
    program written out as a case analysis.  It is an auxiliary form for the
    proofs (see [parse_version_str]); the reference for what the parser
    should compute is [version_text]. *)
Definition version_of_pieces (limit : N) (pieces : list string) : result (Z * Z) :=
  match pieces with
  | [] => Raise IndexError
  | p0 :: rest =>
      match int_of_string limit p0 with
      | None => Raise ValueError
      | Some major =>
          match rest with
          | [] => Ok (major, 0)
          | p1 :: _ =>
              match int_of_string limit p1 with
              | None => Raise ValueError
              | Some minor => Ok (major, minor)
              end
          end
      end
  end.

(** A minion that answered, whose version is neither below nor above the
    maximum in the sense of the two tests. *)
Definition in_range (limit : N) (max : Z * Z)
    (minion_data : list (string * py_value)) (minion : string) : Prop :=
  exists d v ver,
    In (minion, PyDict d) minion_data /\
    d !! version_key = Some (PyStr v) /\
    Py.outcome (parse_version limit (PyStr v)) = Ok ver /\
    below max ver = false /\ above max ver = false.

Definition exactly_one (a b c d : Prop) : Prop :=
  (a /\ ~ b /\ ~ c /\ ~ d) \/ (~ a /\ b /\ ~ c /\ ~ d) \/
  (~ a /\ ~ b /\ c /\ ~ d) \/ (~ a /\ ~ b /\ ~ c /\ d).

(** A small inventory, and one with a malformed version. *)
Definition sample_record (version : string) : gmap string py_value :=
  {[ "saltversion" := PyStr version ]}.

Definition sample_inventory : list (string * py_value) :=
  [("h1", PyDict (sample_record "3006.2"));
   ("h2", PyDict (sample_record "3007.9"));
   ("h3", PyDict ∅);
   ("h4", PyDict (sample_record "3007.5"))].

Definition broken_inventory : list (string * py_value) :=
  [("h1", PyDict (sample_record "3006.2"));
   ("h2", PyDict (sample_record "3007.x"))].

(** ** What [int] reads, by the language reference

    The text that [int] accepts in base ten, stated without the scanner
    above: optional white space, an optional sign, decimal digits with at
    most one underscore between two of them, optional white space; its value
    is the number the digits denote by position.  A text of more digits
    than both the interpreter's limit and 640 is refused unless the limit is
    0. *)

(** The ten decimal digits in the order of their values. *)
Definition digit_chars : list ascii :=
  ["0"; "1"; "2"; "3"; "4"; "5"; "6"; "7"; "8"; "9"]%char.

Fixpoint position (c : ascii) (chars : list ascii) : option nat :=
  match chars with
  | [] => None
  | x :: rest =>
      if Ascii.eqb c x then Some O else option_map S (position c rest)
  end.

(** The value of a digit: its place among [digit_chars]. *)
Definition digit_of (c : ascii) : option Z :=
  option_map Z.of_nat (position c digit_chars).

(** Space, tab, line feed, vertical tab, form feed, carriage return, NEL and
    the no-break space. *)
Definition white_space : list ascii :=
  [" "; "009"; "010"; "011"; "012"; "013"; "133"; "160"]%char.

Definition white (c : ascii) : bool := existsb (Ascii.eqb c) white_space.

Fixpoint blank (s : string) : bool :=
  match s with
  | EmptyString => true
  | String c s' => white c && blank s'
  end.

Fixpoint positional_value (digits : list Z) : Z :=
  match digits with
  | [] => 0
  | d :: rest => d * 10 ^ Z.of_nat (List.length rest) + positional_value rest
  end.

(** [digit_group text digits]: [text] spells [digits], with single
    underscores allowed between two digits. *)
Inductive digit_group : string -> list Z -> Prop :=
| group_last c d :
    digit_of c = Some d -> digit_group (String c EmptyString) [d]
| group_next c d text digits :
    digit_of c = Some d -> digit_group text digits ->
    digit_group (String c text) (d :: digits)
| group_under c d text digits :
    digit_of c = Some d -> digit_group text digits ->
    digit_group (String c (String "_" text)) (d :: digits).

Inductive sign_of : string -> Z -> Prop :=
| sign_none : sign_of EmptyString 1
| sign_plus : sign_of "+" 1
| sign_minus : sign_of "-" (-1).

(** [integer_text s z n]: [s] is an integer literal of [n] digits denoting [z]. *)
Definition integer_text (s : string) (z : Z) (n : nat) : Prop :=
  exists lead sgn k text digits trail,
    s = lead ++ sgn ++ text ++ trail /\
    blank lead = true /\ blank trail = true /\
    sign_of sgn k /\ digit_group text digits /\
    z = k * positional_value digits /\ n = List.length digits.

Definition within_digit_limit (limit : N) (n : nat) : Prop :=
  limit = 0%N \/ (N.of_nat n <= limit)%N \/ (N.of_nat n <= 640)%N.

(** [integer_of limit s z]: [int(s)] is defined and is [z]. *)
Definition integer_of (limit : N) (s : string) (z : Z) : Prop :=
  exists n, integer_text s z n /\ within_digit_limit limit n.

(** A piece that is not an integer literal at all. *)
Definition non_numeric (s : string) : Prop :=
  ~ exists z n, integer_text s z n.

Definition dot_free (p : string) : Prop := has_char "." p = false.

(** The contract of the version parser in the words of the design document:
    the text is split at its dots, the major number is the integer value of
    the first piece, the minor number that of the second piece, or 0 when
    there is no second piece. *)
Definition version_text (limit : N) (s : string) (major minor : Z) : Prop :=
  exists p0 rest,
    s = join_dot (p0 :: rest) /\ Forall dot_free (p0 :: rest) /\
    integer_of limit p0 major /\
    match rest with
    | [] => minor = 0
    | p1 :: _ => integer_of limit p1 minor
    end.

(** ** The driver

    The remaining functions of main.py.  Reading a file and decoding JSON
    ([parse_json]), [str.upper], the [repr] of a dictionary and whether
    standard output takes a text ([prints]) are outside the program and are
    kept abstract.  What is written is kept as the list of the texts that
    [print] wrote, one per call; a call that raises writes nothing and ends
    the run. *)

(** The number of decimal digits of an integer. *)
Definition decimal_digits (n : Z) : N :=
  N.of_nat (String.length (py_str (Z.abs n))).

(** [s.split(sep)] for a separator of one character. *)
Fixpoint split_pieces_on (sep : ascii) (s : string) : string * list string :=
  match s with
  | EmptyString => (EmptyString, [])
  | String c s' =>
      let (piece, pieces) := split_pieces_on sep s' in
      if Ascii.eqb c sep then (EmptyString, piece :: pieces)
      else (String c piece, pieces)
  end.

Definition split_on (sep : ascii) (s : string) : list string :=
  let (piece, pieces) := split_pieces_on sep s in piece :: pieces.

(** [parts[-1]] *)
Definition py_getitem_last (parts : list string) : Py.t string :=
  match parts with
  | [] => Py.raise IndexError
  | p :: rest => Py.ret (List.last rest p)
  end.

(** [filename.split("_")[-1].split(".")[0]] (main.py, line 109). *)
Definition datacenter_of (filename : string) : Py.t string :=
  last_piece <- py_getitem_last (split_on "_" filename) ;;
  py_getitem (split_dot last_piece) 0.

(** [c * n] for a string of one character. *)
Fixpoint str_repeat (c : ascii) (n : nat) : string :=
  match n with
  | O => EmptyString
  | S n' => String c (str_repeat c n')
  end.

Definition newline : ascii := "010"%char.

Definition JSON_FILES : list string :=
  ["all_minion_data1.json"; "all_minion_data2.json"; "all_minion_data3.json"].

Definition MAX_VERSION : string := "3007.6".

Definition no_data_message : string := "No minion data could be processed.".

(** How a run of [main] ends when it does not return normally. *)
Inductive failure : Type :=
| LoadFailed
| Raised (e : exn)
| PrintFailed.

Definition classification : Type :=
  (list (string * string) * list (string * string) * list string)%type.

Section Driver.

Variable limit : N.

(** [str.upper]; it may leave the code points below 256. *)
Variable str_upper : string -> string.

(** The text of a one-entry dictionary [{minion: version}]. *)
Variable repr_entry : string * string -> string.

(** [parse_json] (main.py, lines 57-60): the inventory a file holds, or
    [None] when opening or decoding it raises. *)
Variable parse_json : string -> option (list (string * py_value)).

(** Whether [print] can write a text to standard output; when it cannot (the
    stream does not encode one of its characters, for one) it raises. *)
Variable prints : string -> bool.

(** [print] on each text in turn: the texts written, and the failure of the
    first call that raised, after which nothing more is written. *)
Fixpoint print_lines (lines : list string) : list string * option failure :=
  match lines with
  | [] => ([], None)
  | line :: rest =>
      if prints line
      then let (printed, status) := print_lines rest in (line :: printed, status)
      else ([], Some PrintFailed)
  end.

(** [get_minion_data] (main.py, lines 63-64). *)
Definition get_minion_data (files : list string)
  : option (list (list (string * py_value))) :=
  mapM parse_json files.

(** [process_minion_data] (main.py, lines 67-68). *)
Definition process_minion_data (max_version : string)
    (data : list (list (string * py_value))) : Py.t (list classification) :=
  py_map (fun d => filter_by_version limit max_version d) data.

(** [generate_report] (main.py, lines 71-91): the texts it passes to
    [print], in the order of the calls. *)
Definition generate_report (datacenter_name : string)
    (updatable higher_version : list (string * string))
    (unresponsive : list string) : list string :=
  ([String newline ("--- Report for " ++ str_upper datacenter_name
                    ++ " Datacenter ---")%string]
   ++ [String newline ("Found " ++ py_str (Z.of_nat (List.length updatable))
                       ++ " minions that need an update:")%string]
   ++ map (fun minion => ("  - " ++ repr_entry minion)%string) updatable
   ++ [String newline ("Found " ++ py_str (Z.of_nat (List.length higher_version))
                       ++ " minions with a higher version:")%string]
   ++ map (fun minion => ("  - " ++ repr_entry minion)%string) higher_version
   ++ [String newline ("Found " ++ py_str (Z.of_nat (List.length unresponsive))
                       ++ " unresponsive minions:")%string]
   ++ map (fun minion_id => ("  - " ++ minion_id)%string) unresponsive
   ++ [str_repeat "-" (20 + String.length datacenter_name)])%list.

(** The loop of [main] (lines 108-110) over the zipped file names and
    results: what it prints, and the exception that stopped it, if any. *)
Fixpoint report_all (pairs : list (string * classification))
  : list string * option failure :=
  match pairs with
  | [] => ([], None)
  | (filename, (updatable, higher, unresponsive)) :: rest =>
      match Py.outcome (datacenter_of filename) with
      | Raise e => ([], Some (Raised e))
      | Ok dc_name =>
          match print_lines (generate_report dc_name updatable higher unresponsive) with
          | (printed, Some why) => (printed, Some why)
          | (printed, None) =>
              let (more, status) := report_all rest in
              ((printed ++ more)%list, status)
          end
      end
  end.

(** [main] (main.py, lines 94-110): what it prints and how it ends. *)
Definition main : list string * option failure :=
  match get_minion_data JSON_FILES with
  | None => ([], Some LoadFailed)
  | Some all_minion_data =>
      match all_minion_data with
      | [] => print_lines [no_data_message]
      | _ :: _ =>
          match Py.outcome (process_minion_data MAX_VERSION all_minion_data) with
          | Raise e => ([], Some (Raised e))
          | Ok processed_data => report_all (combine JSON_FILES processed_data)
          end
      end
  end.

End Driver.

(** ** Further notions about records *)

Section RecordNotions.

Variable limit : N.

(** A record on which [in] is not defined. *)
Definition not_a_container (record : py_value) : Prop :=
  match record with
  | PyNone | PyBool _ | PyInt _ => True
  | PyStr _ | PyList _ | PyDict _ => False
  end.

(** A record the classification gets through: a dictionary whose version
    field, if it has one, parses, or another container that does not hold
    the key. *)
Definition classifiable (record : py_value) : Prop :=
  match record with
  | PyDict d =>
      match d !! version_key with
      | Some v => succeeds (parse_version limit v)
      | None => True
      end
  | PyStr _ | PyList _ => responsive record = false
  | PyNone | PyBool _ | PyInt _ => False
  end.

(** A minion that answered and is reported in neither list. *)
Definition is_in_range (max : Z * Z) (item : string * py_value) : bool :=
  responsive (snd item)
  && negb (below max (version_or_zero limit (snd item)))
  && negb (above max (version_or_zero limit (snd item))).

(** Two entries for the same minion whose records are dictionaries with the
    same version field (or both without one). *)
Definition same_version_field (x y : string * py_value) : Prop :=
  fst x = fst y /\
  exists d d', snd x = PyDict d /\ snd y = PyDict d' /\
               d !! version_key = d' !! version_key.

End RecordNotions.

(** Two computations that log the same calls and end alike: with the same
    exception, or with values related by [R]. *)
Definition agree {A B} (R : A -> B -> Prop) (m : Py.t A) (m' : Py.t B) : Prop :=
  Py.calls m = Py.calls m' /\
  match Py.outcome m, Py.outcome m' with
  | Ok a, Ok b => R a b
  | Raise e, Raise e' => e = e'
  | _, _ => False
  end.

(** The sample inventory with further fields in its records. *)
Definition detailed_inventory : list (string * py_value) :=
  [("h1", PyDict (<[ "os" := PyStr "Debian" ]> (sample_record "3006.2")));
   ("h2", PyDict (<[ "saltversion" := PyStr "3007.9" ]> {[ "id" := PyInt 2 ]}));
   ("h3", PyDict {[ "retcode" := PyInt 1 ]});
   ("h4", PyDict (sample_record "3007.5"))].

(** Stand-ins for the abstract parts of the driver, to run it on examples:
    a file system holding three inventories, one whose third file holds a
    malformed version, an upper-casing of the lower-case ASCII letters, and a
    rendering of a one-entry dictionary. *)
Definition sample_files (file : string) : option (list (string * py_value)) :=
  if String.eqb file "all_minion_data1.json" then Some sample_inventory
  else if String.eqb file "all_minion_data2.json" then Some []
  else if String.eqb file "all_minion_data3.json" then Some detailed_inventory
  else None.

Definition broken_files (file : string) : option (list (string * py_value)) :=
  if String.eqb file "all_minion_data3.json" then Some broken_inventory
  else sample_files file.

Definition ascii_upper (c : ascii) : ascii :=
  let n := N_of_ascii c in
  if ((97 <=? n) && (n <=? 122))%N then ascii_of_N (n - 32) else c.

Fixpoint sample_upper (s : string) : string :=
  match s with
  | EmptyString => EmptyString
  | String c s' => String (ascii_upper c) (sample_upper s')
  end.

Definition sample_repr (entry : string * string) : string :=
  "{'" ++ fst entry ++ "': '" ++ snd entry ++ "'}".

(** A standard output that takes the ASCII characters only. *)
Fixpoint ascii_only (s : string) : bool :=
  match s with
  | EmptyString => true
  | String c s' => (N_of_ascii c <? 128)%N && ascii_only s'
  end.

(** A file system whose second file names a minion with a letter outside
    ASCII. *)
Definition accented_files (file : string) : option (list (string * py_value)) :=
  if String.eqb file "all_minion_data2.json"
  then Some [("caf" ++ String "233" EmptyString, PyDict ∅)]
  else sample_files file.

(** An inventory with a minion that did not answer at all. *)
Definition silent_inventory : list (string * py_value) :=
  [("h1", PyDict (sample_record "3006.2")); ("h2", PyBool false)].

Definition unversioned_inventory : list (string * py_value) :=
  [("h1", PyDict ∅); ("h2", PyDict {[ "retcode" := PyInt 1 ]})].

(** ** Splitting *)

Lemma app_nil_string (s : string) : EmptyString ++ s = s.
Proof. reflexivity. Qed.

Lemma app_cons_string c (s t : string) : String c s ++ t = String c (s ++ t).
Proof. reflexivity. Qed.

Lemma split_dot_cons c s :
  split_dot (String c s) =
  if Ascii.eqb c "." then EmptyString :: split_dot s
  else match split_dot s with
       | p :: ps => String c p :: ps
       | [] => [String c EmptyString]
       end.
Proof.
  unfold split_dot. simpl. destruct (split_pieces s) as [p ps].
  destruct (Ascii.eqb c "."); reflexivity.
Qed.

Lemma split_dot_nonempty s : exists p ps, split_dot s = p :: ps.
Proof. unfold split_dot. destruct (split_pieces s) as [p ps]. eauto. Qed.

Lemma split_dot_plain p :
  has_char "." p = false -> split_dot p = [p].
Proof.
  induction p as [|c p IH]; simpl; intros H; [reflexivity|].
  apply orb_false_iff in H as [Hc Hp].
  rewrite split_dot_cons, Hc, (IH Hp). reflexivity.
Qed.

Lemma split_dot_app p s :
  has_char "." p = false ->
  split_dot (p ++ String "." s) = p :: split_dot s.
Proof.
  induction p as [|c p IH]; cbn [has_char]; intros H.
  - rewrite app_nil_string, split_dot_cons. reflexivity.
  - apply orb_false_iff in H as [Hc Hp].
    rewrite app_cons_string, split_dot_cons, Hc, (IH Hp). reflexivity.
Qed.

Lemma join_split_dot s : join_dot (split_dot s) = s.
Proof.
  induction s as [|c s IH]; [reflexivity|].
  rewrite split_dot_cons.
  destruct (Ascii.eqb_spec c ".") as [->|Hc].
  - destruct (split_dot_nonempty s) as (p & ps & E). rewrite E in *.
    simpl in *. rewrite IH. reflexivity.
  - destruct (split_dot_nonempty s) as (p & ps & E). rewrite E in *.
    destruct ps; simpl in *; rewrite <- IH; reflexivity.
Qed.

Lemma split_dot_pieces s :
  Forall (fun p => has_char "." p = false) (split_dot s).
Proof.
  induction s as [|c s IH]; [repeat constructor|].
  rewrite split_dot_cons.
  destruct (Ascii.eqb c ".") eqn:Hc.
  - constructor; [reflexivity | exact IH].
  - destruct (split_dot s) as [|p ps]; [repeat constructor; simpl; now rewrite Hc|].
    inversion IH; subst. constructor; [simpl; rewrite Hc; assumption | assumption].
Qed.

(** ** Numerals *)

Ltac bool_cases :=
  repeat match goal with
    | |- context [N.leb ?a ?b] => destruct (N.leb_spec a b)
    | |- context [N.eqb ?a ?b] => destruct (N.eqb_spec a b)
    | H : context [N.leb ?a ?b] |- _ => destruct (N.leb_spec a b)
    | H : context [N.eqb ?a ?b] |- _ => destruct (N.eqb_spec a b)
    end.

Lemma is_digit_range c :
  is_digit c = true <-> (48 <= N_of_ascii c <= 57)%N.
Proof.
  unfold is_digit. cbv zeta. rewrite andb_true_iff, !N.leb_le. reflexivity.
Qed.

Lemma digit_not_space c : is_digit c = true -> is_space c = false.
Proof.
  rewrite is_digit_range. unfold is_space. cbv zeta. intros H.
  bool_cases; simpl; try reflexivity; lia.
Qed.

Lemma digit_not_char c d :
  is_digit c = true -> is_digit d = false -> Ascii.eqb c d = false.
Proof.
  intros Hc Hd. destruct (Ascii.eqb_spec c d) as [->|]; congruence.
Qed.

Lemma digit_value_range c : is_digit c = true -> 0 <= digit_value c <= 9.
Proof. rewrite is_digit_range. unfold digit_value. lia. Qed.

Lemma decimal_value_nonneg s : all_digits s = true -> 0 <= decimal_value s.
Proof.
  induction s as [|c s IH]; simpl; [lia|].
  rewrite andb_true_iff. intros [Hc Hs].
  pose proof (digit_value_range c Hc). specialize (IH Hs).
  assert (0 <= 10 ^ Z.of_nat (String.length s)) by (apply Z.pow_nonneg; lia).
  nia.
Qed.

Lemma scan_digits_numeral s acc k :
  all_digits s = true ->
  scan_digits acc k s =
  Some (acc * 10 ^ Z.of_nat (String.length s) + decimal_value s,
        (k + N.of_nat (String.length s))%N, EmptyString).
Proof.
  revert acc k. induction s as [|c s IH]; intros acc k.
  - intros _. simpl. repeat f_equal; lia.
  - cbn [all_digits scan_digits]. rewrite andb_true_iff. intros [Hc Hs].
    rewrite Hc, (IH _ _ Hs). cbn [String.length decimal_value].
    rewrite Nat2Z.inj_succ, Z.pow_succ_r by lia.
    apply f_equal. apply (f_equal2 pair); [|reflexivity].
    apply (f_equal2 pair); [ring | lia].
Qed.

Lemma skip_spaces_digit c s :
  is_digit c = true -> skip_spaces (String c s) = String c s.
Proof. intros H. simpl. now rewrite (digit_not_space c H). Qed.

Lemma take_sign_digit c s :
  is_digit c = true -> take_sign (String c s) = (false, String c s).
Proof.
  intros H. unfold take_sign.
  now rewrite !(digit_not_char c _ H) by reflexivity.
Qed.

Lemma int_of_string_numeral limit s :
  numeral s ->
  too_many_digits limit (N.of_nat (String.length s)) = false ->
  int_of_string limit s = Some (decimal_value s).
Proof.
  intros [Hd Hne] Hlen. destruct s as [|c s]; [congruence|].
  cbn [all_digits] in Hd. apply andb_true_iff in Hd as [Hc Hs].
  unfold int_of_string.
  rewrite (skip_spaces_digit c s Hc), (take_sign_digit c s Hc), Hc.
  rewrite (scan_digits_numeral s _ _ Hs).
  replace (1 + N.of_nat (String.length s))%N
    with (N.of_nat (String.length (String c s)))
    by (cbn [String.length]; lia).
  rewrite Hlen. reflexivity.
Qed.

(** ** Computations: outcomes and call logs *)

Lemma outcome_bind {A B} (m : Py.t A) (k : A -> Py.t B) :
  Py.outcome (Py.bind m k) =
  match Py.outcome m with
  | Ok a => Py.outcome (k a)
  | Raise e => Raise e
  end.
Proof.
  destruct m as [log [a|e]]; simpl; [|reflexivity].
  destruct (k a); reflexivity.
Qed.

Lemma calls_bind {A B} (m : Py.t A) (k : A -> Py.t B) :
  Py.calls (Py.bind m k) =
  (Py.calls m ++ match Py.outcome m with
                 | Ok a => Py.calls (k a)
                 | Raise _ => []
                 end)%list.
Proof.
  destruct m as [log [a|e]]; simpl; [|now rewrite app_nil_r].
  destruct (k a); reflexivity.
Qed.

Lemma py_filter_ok {A} (p : A -> Py.t bool) l l' :
  Py.outcome (py_filter p l) = Ok l' ->
  Forall (fun x => succeeds (p x)) l /\ l' = List.filter (fun x => holds (p x)) l.
Proof.
  revert l'. induction l as [|x l IH]; intros l'; cbn [py_filter List.filter].
  - intros [= <-]. split; constructor.
  - rewrite outcome_bind. unfold holds, force.
    destruct (Py.outcome (p x)) as [b|e] eqn:Hx; [|discriminate].
    rewrite outcome_bind.
    destruct (Py.outcome (py_filter p l)) as [rest|e] eqn:Hl; [|discriminate].
    destruct (IH rest eq_refl) as [Hall ->]. cbn. intros [= <-].
    split; [constructor; [exists b; assumption | assumption] | reflexivity].
Qed.

Lemma py_filter_succeeds {A} (p : A -> Py.t bool) l :
  Forall (fun x => succeeds (p x)) l ->
  Py.outcome (py_filter p l) = Ok (List.filter (fun x => holds (p x)) l).
Proof.
  induction 1 as [|x l [b Hx] _ IH]; cbn [py_filter List.filter]; [reflexivity|].
  rewrite outcome_bind, Hx, outcome_bind, IH. unfold holds, force. rewrite Hx.
  reflexivity.
Qed.

Lemma py_filter_calls {A} (p : A -> Py.t bool) l :
  (forall x, Py.calls (p x) = []) -> Py.calls (py_filter p l) = [].
Proof.
  intros Hp. induction l as [|x l IH]; cbn [py_filter]; [reflexivity|].
  rewrite calls_bind, Hp. destruct (Py.outcome (p x)); [|reflexivity].
  rewrite calls_bind, IH. destruct (Py.outcome (py_filter p l)); reflexivity.
Qed.

Lemma py_map_ok {A B} (d : B) (f : A -> Py.t B) l l' :
  Py.outcome (py_map f l) = Ok l' ->
  Forall (fun x => succeeds (f x)) l /\ l' = map (fun x => force d (f x)) l.
Proof.
  revert l'. induction l as [|x l IH]; intros l'; cbn [py_map map].
  - intros [= <-]. split; constructor.
  - rewrite outcome_bind. unfold force at 1.
    destruct (Py.outcome (f x)) as [y|e] eqn:Hx; [|discriminate].
    rewrite outcome_bind.
    destruct (Py.outcome (py_map f l)) as [rest|e] eqn:Hl; [|discriminate].
    destruct (IH rest eq_refl) as [Hall ->]. cbn. intros [= <-].
    split; [constructor; [exists y; assumption | assumption] | reflexivity].
Qed.

Lemma py_map_succeeds {A B} (d : B) (f : A -> Py.t B) l :
  Forall (fun x => succeeds (f x)) l ->
  Py.outcome (py_map f l) = Ok (map (fun x => force d (f x)) l).
Proof.
  induction 1 as [|x l [y Hx] _ IH]; cbn [py_map map]; [reflexivity|].
  rewrite outcome_bind, Hx, outcome_bind, IH. unfold force. rewrite Hx.
  reflexivity.
Qed.

Lemma py_map_calls {A B} (f : A -> Py.t B) l :
  Forall (fun x => succeeds (f x)) l ->
  Py.calls (py_map f l) = List.concat (map (fun x => Py.calls (f x)) l).
Proof.
  induction 1 as [|x l [y Hx] Hl IH]; cbn [py_map map List.concat]; [reflexivity|].
  rewrite calls_bind, Hx, calls_bind, IH.
  rewrite (py_map_succeeds y f l Hl). cbn. now rewrite app_nil_r.
Qed.

Lemma py_map_calls_in {A B} (f : A -> Py.t B) l c :
  In c (Py.calls (py_map f l)) -> exists x, In x l /\ In c (Py.calls (f x)).
Proof.
  induction l as [|x l IH]; cbn [py_map]; [intros []|].
  rewrite calls_bind. intros H. apply in_app_or in H as [H|H].
  - exists x. split; [now left | assumption].
  - destruct (Py.outcome (f x)); [|destruct H].
    rewrite calls_bind in H. apply in_app_or in H as [H|H].
    + destruct (IH H) as (x' & Hin & Hc). exists x'. split; [now right | assumption].
    + destruct (Py.outcome (py_map f l)); destruct H.
Qed.

Lemma filter_map_comm {A B} (p : B -> bool) (g : A -> B) l :
  List.filter p (map g l) = map g (List.filter (fun x => p (g x)) l).
Proof.
  induction l as [|x l IH]; simpl; [reflexivity|].
  destruct (p (g x)); simpl; now rewrite IH.
Qed.

Lemma filter_filter {A} (p q : A -> bool) l :
  List.filter p (List.filter q l) = List.filter (fun x => q x && p x) l.
Proof.
  induction l as [|x l IH]; simpl; [reflexivity|].
  destruct (q x); simpl; [destruct (p x)|]; now rewrite IH.
Qed.

(** ** Classification *)

Section Classification.

Variable limit : N.

Lemma parse_version_calls v : Py.calls (parse_version limit v) = [v].
Proof.
  unfold parse_version. rewrite calls_bind. cbn.
  destruct v; cbn; try reflexivity.
  destruct (split_dot_nonempty s) as (p & ps & ->). cbn.
  unfold py_int. destruct (int_of_string limit p); cbn; [|reflexivity].
  destruct ps as [|q ps]; cbn; [reflexivity|].
  destruct (int_of_string limit q); reflexivity.
Qed.

Lemma py_contains_calls v k : Py.calls (py_contains v k) = [].
Proof. destruct v; reflexivity. Qed.

Lemma responsive_is_dict record :
  responsive record = true ->
  succeeds (py_get record version_key) ->
  exists d v, record = PyDict d /\ d !! version_key = Some v /\ version_field record = v.
Proof.
  intros Hresp [v Hget]. destruct record; try discriminate.
  unfold responsive, holds, force in Hresp. cbn in Hresp.
  apply bool_decide_eq_true in Hresp as [x Hx].
  exists d, x. unfold version_field, force. cbn. rewrite Hx. auto.
Qed.

Lemma read_version_outcome item :
  succeeds (py_get (snd item) version_key) ->
  Py.outcome (read_version limit item) =
  match host_version limit (snd item) with
  | Ok v => Ok (fst item, v)
  | Raise e => Raise e
  end.
Proof.
  intros [v Hv]. unfold read_version, host_version, version_field, force.
  rewrite outcome_bind, Hv, outcome_bind.
  destruct (Py.outcome (parse_version limit v)); reflexivity.
Qed.

Lemma read_version_succeeds item :
  succeeds (read_version limit item) ->
  succeeds (py_get (snd item) version_key) /\
  host_version limit (snd item) = Ok (version_or_zero limit (snd item)) /\
  force (fst item, (0, 0)) (read_version limit item) = (fst item, version_or_zero limit (snd item)).
Proof.
  intros [y Hy].
  assert (Hget : succeeds (py_get (snd item) version_key)).
  { unfold read_version in Hy. rewrite outcome_bind in Hy.
    destruct (Py.outcome (py_get (snd item) version_key)) as [v|] eqn:E;
      [exists v; exact E | discriminate]. }
  split; [assumption|].
  unfold force at 1. rewrite (read_version_outcome item Hget) in *.
  unfold version_or_zero, force, host_version in *.
  destruct (Py.outcome (parse_version limit (version_field (snd item))));
    [split; reflexivity | discriminate].
Qed.

Lemma unresponsive_test_succeeds record :
  succeeds (b <- py_contains record version_key ;; Py.ret (negb b)) <->
  succeeds (py_contains record version_key).
Proof.
  unfold succeeds. rewrite outcome_bind.
  destruct (Py.outcome (py_contains record version_key)) as [b|e]; cbn.
  - split; intros _; eauto.
  - split; intros [? [=]].
Qed.

(** A successful call, described by plain filters over the inventory. *)
Lemma filter_by_version_ok max_version minion_data upd high unr :
  Py.outcome (filter_by_version limit max_version minion_data) = Ok (upd, high, unr) ->
  exists max,
    Py.outcome (parse_version limit (PyStr max_version)) = Ok max /\
    Forall (fun item => succeeds (py_contains (snd item) version_key)) minion_data /\
    Forall (fun item => responsive (snd item) = true ->
                        succeeds (py_get (snd item) version_key) /\
                        host_version limit (snd item) = Ok (version_or_zero limit (snd item)))
           minion_data /\
    unr = map fst (List.filter (fun item => unresponsive (snd item)) minion_data) /\
    upd = map (rendered limit) (List.filter (is_updatable limit max) minion_data) /\
    high = map (rendered limit) (List.filter (is_higher limit max) minion_data).
Proof.
  unfold filter_by_version. rewrite outcome_bind.
  destruct (Py.outcome (parse_version limit (PyStr max_version))) as [max|] eqn:Hmax;
    [|discriminate].
  rewrite outcome_bind.
  match goal with |- context [py_filter ?p minion_data] =>
    destruct (Py.outcome (py_filter p minion_data)) as [unr_items|] eqn:Hunr;
      [|discriminate] end.
  apply py_filter_ok in Hunr as [_ ->].
  rewrite outcome_bind.
  match goal with |- context [py_filter ?p minion_data] =>
    destruct (Py.outcome (py_filter p minion_data)) as [resp|] eqn:Hresp;
      [|discriminate] end.
  apply py_filter_ok in Hresp as [Hdef ->].
  rewrite outcome_bind.
  match goal with |- context [py_map ?f ?l] =>
    change f with (read_version limit);
    destruct (Py.outcome (py_map (read_version limit) l)) as [parsed|] eqn:Hparsed;
      [|discriminate] end.
  apply (py_map_ok ("", (0, 0))) in Hparsed as [Hread ->].
  cbn. intros [= <- <- <-].
  rewrite Forall_forall in Hread.
  assert (Hver : forall item, In item minion_data -> responsive (snd item) = true ->
                  succeeds (read_version limit item)).
  { intros item Hin Hr. apply Hread. apply filter_In. split; assumption. }
  exists max. split; [reflexivity|]. split; [exact Hdef|].
  split.
  { apply Forall_forall. intros item Hin Hr.
    destruct (read_version_succeeds item (Hver item Hin Hr)) as (? & ? & _). auto. }
  split; [reflexivity|].
  assert (Hmap : map (fun x => force ("", (0, 0)) (read_version limit x))
                   (List.filter (fun x => holds (py_contains (snd x) "saltversion")) minion_data)
                 = map (fun x => (fst x, version_or_zero limit (snd x)))
                   (List.filter (fun x => responsive (snd x)) minion_data)).
  { apply map_ext_in. intros item Hin.
    pose proof (Hread item Hin) as Hs.
    destruct (read_version_succeeds item Hs) as (_ & _ & E).
    destruct Hs as [y Hy]. unfold force in *. rewrite Hy in *. exact E. }
  rewrite Hmap.
  split; rewrite filter_map_comm, filter_filter, map_map; reflexivity.
Qed.

End Classification.

(** ** Rendering integers *)

Lemma digit_char_spec d :
  0 <= d < 10 ->
  is_digit (digit_char d) = true /\
  digit_value (digit_char d) = d /\
  (digit_char d = "0"%char -> d = 0).
Proof.
  intros H.
  assert (d = 0 \/ d = 1 \/ d = 2 \/ d = 3 \/ d = 4 \/
          d = 5 \/ d = 6 \/ d = 7 \/ d = 8 \/ d = 9) as Hd by lia.
  repeat destruct Hd as [->|Hd]; try subst d;
    (split; [reflexivity | split; [reflexivity | try reflexivity; discriminate]]).
Qed.

Lemma all_digits_app s t :
  all_digits (s ++ t) = all_digits s && all_digits t.
Proof.
  induction s as [|c s IH]; [reflexivity|].
  rewrite app_cons_string. cbn [all_digits]. now rewrite IH, andb_assoc.
Qed.

Lemma length_app_char s c :
  String.length (s ++ String c EmptyString) = S (String.length s).
Proof.
  induction s as [|d s IH]; [reflexivity|].
  rewrite app_cons_string. cbn [String.length]. now rewrite IH.
Qed.

Lemma decimal_value_app_char s c :
  decimal_value (s ++ String c EmptyString) = 10 * decimal_value s + digit_value c.
Proof.
  induction s as [|d s IH].
  - rewrite app_nil_string. cbn. lia.
  - rewrite app_cons_string. cbn [decimal_value].
    rewrite IH, length_app_char, Nat2Z.inj_succ, Z.pow_succ_r by lia. ring.
Qed.

Lemma app_assoc_char s c t :
  (s ++ String c EmptyString) ++ t = s ++ String c t.
Proof.
  induction s as [|d s IH]; [reflexivity|].
  rewrite !app_cons_string. now rewrite IH.
Qed.

Lemma render_digits_spec fuel : forall n acc,
  0 <= n <= Z.of_nat fuel ->
  exists c ds,
    render_digits fuel n acc = String c ds ++ acc /\
    all_digits (String c ds) = true /\
    decimal_value (String c ds) = n /\
    (c = "0"%char -> n = 0 /\ ds = EmptyString).
Proof.
  induction fuel as [|fuel IH]; intros n acc Hn.
  - assert (n = 0) as -> by lia. exists "0"%char, EmptyString.
    repeat split; reflexivity.
  - cbn [render_digits]. destruct (Z.ltb_spec n 10) as [Hlt|Hge].
    + rewrite Z.mod_small by lia.
      destruct (digit_char_spec n) as (Hd & Hv & Hz); [lia|].
      exists (digit_char n), EmptyString. rewrite app_cons_string, app_nil_string.
      split; [reflexivity|]. split; [cbn; now rewrite Hd|].
      split; [cbn; rewrite Hv; lia|]. intros E. split; [auto | reflexivity].
    + assert (Hq : 0 <= n / 10 <= Z.of_nat fuel).
      { split; [apply Z.div_pos; lia|].
        assert (n / 10 < n) by (apply Z.div_lt; lia). lia. }
      destruct (IH (n / 10) (String (digit_char (n mod 10)) acc) Hq)
        as (c & ds & Hr & Hd & Hv & Hz).
      destruct (digit_char_spec (n mod 10)) as (Hd' & Hv' & _);
        [apply Z.mod_pos_bound; lia|].
      exists c, (ds ++ String (digit_char (n mod 10)) EmptyString).
      rewrite <- !app_cons_string.
      split; [now rewrite Hr, app_assoc_char|].
      split; [rewrite all_digits_app, Hd; cbn; now rewrite Hd'|].
      split.
      * rewrite decimal_value_app_char, Hv, Hv'.
        pose proof (Z.div_mod n 10). lia.
      * intros E. destruct (Hz E) as [Hz0 _].
        assert (1 <= n / 10) by (apply Z.div_le_lower_bound; lia). lia.
Qed.

Lemma py_str_nonneg n :
  0 <= n -> canonical (py_str n) /\ decimal_value (py_str n) = n.
Proof.
  intros Hn. unfold py_str. destruct (Z.ltb_spec n 0); [lia|].
  destruct (render_digits_spec (Z.to_nat n) n EmptyString) as (c & ds & Hr & Hd & Hv & Hz);
    [lia|].
  assert (E : String c ds ++ EmptyString = String c ds).
  { clear. generalize (String c ds). intros s.
    induction s as [|d s IH]; [reflexivity|]. rewrite app_cons_string. now rewrite IH. }
  rewrite Hr, E. split; [|exact Hv].
  split; [split; [exact Hd | discriminate]|].
  destruct (ascii_dec c "0") as [Hc|Hc].
  - left. destruct (Hz Hc) as [_ ->]. now rewrite Hc.
  - right. eauto.
Qed.

Lemma py_str_neg n :
  n < 0 -> py_str n = String "-" (py_str (- n)).
Proof.
  intros Hn. unfold py_str.
  destruct (Z.ltb_spec n 0); [|lia]. destruct (Z.ltb_spec (- n) 0); [lia|].
  reflexivity.
Qed.

(** ** Signs *)




Lemma has_char_split_dot c s :
  has_char c s = false -> Forall (fun p => has_char c p = false) (split_dot s).
Proof.
  induction s as [|d s IH]; [repeat constructor|].
  cbn [has_char]. intros H. apply orb_false_iff in H as [Hd Hs].
  specialize (IH Hs). rewrite split_dot_cons.
  destruct (Ascii.eqb d "."); [constructor; [reflexivity | exact IH]|].
  destruct (split_dot s) as [|p ps]; [repeat constructor; cbn; now rewrite Hd|].
  inversion IH; subst. constructor; [cbn; now rewrite Hd | assumption].
Qed.

(** ** Association lists with unique keys *)

Lemma unique_key {V} (l : list (string * V)) k v v' :
  NoDup (map fst l) -> In (k, v) l -> In (k, v') l -> v = v'.
Proof.
  induction l as [|[k0 v0] l IH]; cbn; [intros _ []|].
  intros Hnd [E|Hin] [E'|Hin']; inversion Hnd; subst.
  - congruence.
  - inversion E; subst. exfalso. apply H1. apply (in_map fst _ _ Hin').
  - inversion E'; subst. exfalso. apply H1. apply (in_map fst _ _ Hin).
  - eauto.
Qed.

Lemma key_in_filter {V} (p : string * V -> bool) l k v :
  NoDup (map fst l) -> In (k, v) l ->
  (In k (map fst (List.filter p l)) <-> p (k, v) = true).
Proof.
  intros Hnd Hin. split.
  - intros H. apply in_map_iff in H as ([k' v'] & Hk & H). cbn in Hk. subst k'.
    apply filter_In in H as [H Hp].
    now rewrite (unique_key l k v v' Hnd Hin H).
  - intros Hp. apply (in_map fst _ (k, v)). apply filter_In. auto.
Qed.

Lemma nodup_keys_filter {V} (p : string * V -> bool) l :
  NoDup (map fst l) -> NoDup (map fst (List.filter p l)).
Proof.
  induction l as [|x l IH]; cbn; [auto|]. intros Hnd. inversion Hnd; subst.
  destruct (p x); cbn; [|auto]. constructor; [|auto].
  intros Hin. apply H1. apply in_map_iff in Hin as (y & Hy & Hin).
  apply filter_In in Hin as [Hin _]. rewrite <- Hy. now apply in_map.
Qed.

(** ** Properties of the program *)

Section Properties.

Variable limit : N.

Lemma parse_version_str s :
  Py.outcome (parse_version limit (PyStr s)) = version_of_pieces limit (split_dot s).
Proof.
  unfold parse_version, version_of_pieces. cbn.
  destruct (split_dot_nonempty s) as (p0 & rest & ->). cbn.
  unfold py_int. destruct (int_of_string limit p0); cbn; [|reflexivity].
  destruct rest as [|p1 rest]; cbn; [reflexivity|].
  destruct (int_of_string limit p1); reflexivity.
Qed.

Lemma dict_record d v :
  d !! version_key = Some v ->
  responsive (PyDict d) = true /\ unresponsive (PyDict d) = false /\
  version_field (PyDict d) = v.
Proof.
  intros Hv. unfold responsive, unresponsive, version_field, holds, force. cbn.
  rewrite Hv. rewrite bool_decide_eq_true_2 by eauto. auto.
Qed.

Lemma dict_version d v ver :
  d !! version_key = Some (PyStr v) ->
  Py.outcome (parse_version limit (PyStr v)) = Ok ver ->
  version_or_zero limit (PyDict d) = ver.
Proof.
  intros Hv Hp. destruct (dict_record d _ Hv) as (_ & _ & E).
  unfold version_or_zero, force. now rewrite E, Hp.
Qed.

Lemma host_version_ok record ver :
  host_version limit record = Ok ver ->
  exists d v, record = PyDict d /\ d !! version_key = Some (PyStr v) /\
              Py.outcome (parse_version limit (PyStr v)) = Ok ver.
Proof.
  unfold host_version, version_field, force.
  destruct record; try discriminate. cbn [py_get Py.outcome Py.ret snd].
  destruct (d !! version_key) as [x|] eqn:Hx; [|discriminate].
  destruct x; try discriminate. eauto.
Qed.

Lemma keys_rendered l : map fst (map (rendered limit) l) = map fst l.
Proof. rewrite map_map. apply map_ext. reflexivity. Qed.

Lemma below_true max v :
  below max v = true <-> fst v < fst max /\ snd v < snd max.
Proof. unfold below. now rewrite andb_true_iff, !Z.ltb_lt. Qed.

Lemma above_true max v :
  above max v = true <-> fst v = fst max /\ snd v > snd max.
Proof.
  unfold above. rewrite andb_true_iff, Z.eqb_eq, Z.gtb_ltb, Z.ltb_lt. lia.
Qed.

(** Membership of a parsed minion in a reported list. *)
Lemma reported_iff (test : Z * Z -> bool) minion_data minion d v ver :
  NoDup (map fst minion_data) ->
  In (minion, PyDict d) minion_data ->
  d !! version_key = Some (PyStr v) ->
  Py.outcome (parse_version limit (PyStr v)) = Ok ver ->
  let reported :=
    map (rendered limit)
        (List.filter (fun item => responsive (snd item)
                                  && test (version_or_zero limit (snd item)))
                     minion_data) in
  (In minion (map fst reported) <-> test ver = true) /\
  (In (minion, py_str (fst ver) ++ "." ++ py_str (snd ver)) reported <-> test ver = true).
Proof.
  intros Hnd Hin Hv Hp reported. subst reported.
  destruct (dict_record d _ Hv) as (Hr & _ & _).
  pose proof (dict_version d v ver Hv Hp) as Hver.
  assert (Hkey : In minion (map fst (map (rendered limit)
             (List.filter (fun item => responsive (snd item)
                                  && test (version_or_zero limit (snd item)))
                     minion_data))) <-> test ver = true).
  { rewrite keys_rendered, (key_in_filter _ _ _ _ Hnd Hin). cbn [snd].
    now rewrite Hr, Hver. }
  split; [exact Hkey|]. split.
  - intros H. apply Hkey. now apply (in_map fst) in H.
  - intros Ht. apply in_map_iff. exists (minion, PyDict d). split.
    + unfold rendered, format_minion. cbn [fst snd]. now rewrite Hver.
    + apply filter_In. split; [assumption|]. cbn [snd]. now rewrite Hr, Hver.
Qed.

(** C1: a minion whose version parsed is listed as updatable exactly when its
    major number is below the maximum's major number and its minor number is
    below the maximum's minor number.  A lower major number with a minor
    number that is not lower, or an equal major number with a lower minor
    number, does not make it updatable. *)
Theorem updatable_iff_both_lower
    max_version minion_data upd high unr minion d v major minor maxMajor maxMinor :
  NoDup (map fst minion_data) ->
  Py.outcome (filter_by_version limit max_version minion_data) = Ok (upd, high, unr) ->
  Py.outcome (parse_version limit (PyStr max_version)) = Ok (maxMajor, maxMinor) ->
  In (minion, PyDict d) minion_data ->
  d !! version_key = Some (PyStr v) ->
  Py.outcome (parse_version limit (PyStr v)) = Ok (major, minor) ->
  (In minion (map fst upd) <-> major < maxMajor /\ minor < maxMinor) /\
  (In (minion, py_str major ++ "." ++ py_str minor) upd <->
   major < maxMajor /\ minor < maxMinor) /\
  (major < maxMajor -> maxMinor <= minor -> ~ In minion (map fst upd)) /\
  (major = maxMajor -> minor < maxMinor -> ~ In minion (map fst upd)).
Proof.
  intros Hnd Hok Hmax Hin Hv Hp.
  destruct (filter_by_version_ok limit _ _ _ _ _ Hok) as (max & Hmax' & _ & _ & _ & -> & _).
  rewrite Hmax in Hmax'. injection Hmax' as <-.
  destruct (reported_iff (below (maxMajor, maxMinor)) _ _ _ _ _ Hnd Hin Hv Hp) as [Hk He].
  rewrite below_true in Hk, He. cbn [fst snd] in Hk, He.
  split; [exact Hk|]. split; [exact He|]. split; intros ? ?; rewrite Hk; lia.
Qed.

(** C2: a minion whose version parsed is listed as higher-version exactly
    when its major number equals the maximum's and its minor number exceeds
    the maximum's.  A different major number never makes it higher-version. *)
Theorem higher_iff_same_major_greater_minor
    max_version minion_data upd high unr minion d v major minor maxMajor maxMinor :
  NoDup (map fst minion_data) ->
  Py.outcome (filter_by_version limit max_version minion_data) = Ok (upd, high, unr) ->
  Py.outcome (parse_version limit (PyStr max_version)) = Ok (maxMajor, maxMinor) ->
  In (minion, PyDict d) minion_data ->
  d !! version_key = Some (PyStr v) ->
  Py.outcome (parse_version limit (PyStr v)) = Ok (major, minor) ->
  (In minion (map fst high) <-> major = maxMajor /\ minor > maxMinor) /\
  (In (minion, py_str major ++ "." ++ py_str minor) high <->
   major = maxMajor /\ minor > maxMinor) /\
  (major <> maxMajor -> ~ In minion (map fst high)).
Proof.
  intros Hnd Hok Hmax Hin Hv Hp.
  destruct (filter_by_version_ok limit _ _ _ _ _ Hok) as (max & Hmax' & _ & _ & _ & _ & ->).
  rewrite Hmax in Hmax'. injection Hmax' as <-.
  destruct (reported_iff (above (maxMajor, maxMinor)) _ _ _ _ _ Hnd Hin Hv Hp) as [Hk He].
  rewrite above_true in Hk, He. cbn [fst snd] in Hk, He.
  split; [exact Hk|]. split; [exact He|]. intros ?; rewrite Hk; lia.
Qed.

Lemma below_not_above max v : below max v = true -> above max v = false.
Proof.
  rewrite below_true. intros [H _]. unfold above.
  destruct (Z.eqb_spec (fst v) (fst max)); [lia | reflexivity].
Qed.

Lemma record_tests record b :
  Py.outcome (py_contains record version_key) = Ok b ->
  responsive record = b /\ unresponsive record = negb b.
Proof.
  intros H. unfold responsive, unresponsive, holds, force.
  rewrite outcome_bind, H. auto.
Qed.

(** C3: when the classification succeeds, every minion of the inventory is
    in exactly one of: the unresponsive list, the updatable list, the
    higher-version list, or none of them with a version in range; and no
    list names a minion twice. *)
Theorem minion_in_exactly_one_bucket
    max_version minion_data upd high unr max :
  NoDup (map fst minion_data) ->
  Py.outcome (filter_by_version limit max_version minion_data) = Ok (upd, high, unr) ->
  Py.outcome (parse_version limit (PyStr max_version)) = Ok max ->
  (forall minion, In minion (map fst minion_data) ->
     exactly_one (In minion unr)
                 (In minion (map fst upd))
                 (In minion (map fst high))
                 (in_range limit max minion_data minion)) /\
  NoDup unr /\ NoDup (map fst upd) /\ NoDup (map fst high).
Proof.
  intros Hnd Hok Hmax.
  destruct (filter_by_version_ok limit _ _ _ _ _ Hok)
    as (max' & Hmax' & Hdef & Hver & -> & -> & ->).
  rewrite Hmax in Hmax'. injection Hmax' as <-.
  rewrite !keys_rendered.
  split; [|repeat split; now apply nodup_keys_filter].
  intros minion Hin. apply in_map_iff in Hin as ([k record] & Hk & Hin).
  cbn in Hk. subst k. unfold exactly_one.
  rewrite !(key_in_filter _ _ _ _ Hnd Hin).
  unfold is_updatable, is_higher. cbn [snd].
  rewrite List.Forall_forall in Hdef, Hver.
  destruct (Hdef _ Hin) as [b Hb]. cbn [snd] in Hb.
  destruct (record_tests record b Hb) as [Hr Hu]. rewrite Hr, Hu.
  assert (Hrange : in_range limit max minion_data minion ->
            b = true /\ below max (version_or_zero limit record) = false /\
            above max (version_or_zero limit record) = false).
  { intros (d & v & ver & Hd & Hv & Hp & Hb1 & Hb2).
    pose proof (unique_key _ _ _ _ Hnd Hin Hd) as ->.
    destruct (dict_record d _ Hv) as (Hr' & _ & _).
    rewrite (dict_version d v ver Hv Hp). rewrite Hr' in Hr. auto. }
  destruct b; cbn [negb andb].
  - destruct (Hver _ Hin Hr) as [_ Hhost]. cbn [snd] in Hhost.
    destruct (host_version_ok _ _ Hhost) as (d & v & -> & Hv & Hp).
    destruct (below max (version_or_zero limit (PyDict d))) eqn:Hb1.
    + pose proof (below_not_above _ _ Hb1) as Hb2. rewrite Hb2.
      right; left. repeat split; try discriminate; auto.
      intros H. apply Hrange in H as (_ & ? & _). discriminate.
    + destruct (above max (version_or_zero limit (PyDict d))) eqn:Hb2.
      * right; right; left. repeat split; try discriminate; auto.
        intros H. apply Hrange in H as (_ & _ & ?). discriminate.
      * right; right; right. repeat split; try discriminate.
        exists d, v, (version_or_zero limit (PyDict d)). auto.
  - left. repeat split; try discriminate; auto.
    intros H. apply Hrange in H as (? & _). discriminate.
Qed.

Lemma numeral_no_dot d : all_digits d = true -> has_char "." d = false.
Proof.
  induction d as [|c d IH]; [reflexivity|]. cbn. rewrite andb_true_iff.
  intros [Hc Hd]. now rewrite (digit_not_char c "." Hc), IH.
Qed.

(** C7: when the maximum version does not parse, or the version of some
    minion that answered does not parse, the classification raises and so
    yields none of the three lists. *)
Theorem parse_failure_aborts_classification max_version minion_data :
  (forall e, Py.outcome (parse_version limit (PyStr max_version)) = Raise e ->
     Py.outcome (filter_by_version limit max_version minion_data) = Raise e) /\
  (forall minion d v e,
     In (minion, PyDict d) minion_data ->
     d !! version_key = Some v ->
     Py.outcome (parse_version limit v) = Raise e ->
     exists e', Py.outcome (filter_by_version limit max_version minion_data) = Raise e').
Proof.
  split.
  - intros e He. unfold filter_by_version. now rewrite outcome_bind, He.
  - intros minion d v e Hin Hv He.
    destruct (Py.outcome (filter_by_version limit max_version minion_data))
      as [[[upd high] unr]|e'] eqn:Hok; [|eauto].
    exfalso.
    destruct (filter_by_version_ok limit _ _ _ _ _ Hok) as (_ & _ & _ & Hver & _).
    rewrite List.Forall_forall in Hver.
    destruct (dict_record d v Hv) as (Hr & _ & Hf).
    destruct (Hver _ Hin Hr) as [_ Hhost]. cbn [snd] in Hhost.
    unfold host_version in Hhost. rewrite Hf in Hhost. congruence.
Qed.

(** C8: each entry of the updatable and of the higher-version list pairs a
    minion with its parsed major and minor numbers rendered in decimal and
    joined by a dot.  The rendering of a number has no superfluous leading
    zero and denotes that number, and both numbers are always written: a
    minion reporting "5" is listed as "5.0". *)
Theorem flagged_versions_rendered :
  (forall max_version minion_data upd high unr minion text,
     Py.outcome (filter_by_version limit max_version minion_data) = Ok (upd, high, unr) ->
     In (minion, text) upd \/ In (minion, text) high ->
     exists d v major minor,
       In (minion, PyDict d) minion_data /\
       d !! version_key = Some (PyStr v) /\
       Py.outcome (parse_version limit (PyStr v)) = Ok (major, minor) /\
       text = py_str major ++ "." ++ py_str minor) /\
  (forall n, 0 <= n -> canonical (py_str n) /\ decimal_value (py_str n) = n) /\
  (forall n, n < 0 -> py_str n = String "-" (py_str (- n))) /\
  Py.outcome (filter_by_version limit "6.1"
                [("h", PyDict {[ "saltversion" := PyStr "5" ]})]) =
    Ok ([("h", "5.0")], [], []).
Proof.
  split; [|split; [exact py_str_nonneg | split; [exact py_str_neg | reflexivity]]].
  intros max_version minion_data upd high unr minion text Hok Hin.
  destruct (filter_by_version_ok limit _ _ _ _ _ Hok) as (max & _ & _ & Hver & _ & -> & ->).
  rewrite List.Forall_forall in Hver.
  assert (H : exists item, rendered limit item = (minion, text) /\
                           In item minion_data /\ responsive (snd item) = true).
  { destruct Hin as [Hin|Hin]; apply in_map_iff in Hin as (item & Hr & Hin);
      apply filter_In in Hin as [Hin Hp]; apply andb_true_iff in Hp as [Hp _]; eauto. }
  destruct H as ([k record] & Hr & Hin' & Hresp). cbn [snd] in Hresp.
  destruct (Hver _ Hin' Hresp) as [_ Hhost]. cbn [snd] in Hhost.
  destruct (host_version_ok _ _ Hhost) as (d & v & -> & Hv & Hp).
  unfold rendered, format_minion in Hr. cbn [fst snd] in Hr.
  injection Hr as -> <-.
  destruct (version_or_zero limit (PyDict d)) as [major minor].
  exists d, v, major, minor. auto.
Qed.

Lemma unresponsive_test_calls (item : string * py_value) :
  Py.calls (b <- py_contains (snd item) version_key ;; Py.ret (negb b)) = [].
Proof.
  rewrite calls_bind, py_contains_calls.
  destruct (Py.outcome (py_contains (snd item) version_key)); reflexivity.
Qed.

Lemma py_get_calls v k : Py.calls (py_get v k) = [].
Proof. destruct v; reflexivity. Qed.

Lemma read_version_calls_in item c :
  In c (Py.calls (read_version limit item)) -> c = version_field (snd item).
Proof.
  unfold read_version, version_field, force. rewrite calls_bind, py_get_calls.
  cbn [app].
  destruct (Py.outcome (py_get (snd item) version_key)) as [v|]; [|intros []].
  rewrite calls_bind, parse_version_calls. intros [<-|H]; [reflexivity|].
  destruct (Py.outcome (parse_version limit v)); destruct H.
Qed.

Lemma read_version_calls item :
  succeeds (read_version limit item) ->
  Py.calls (read_version limit item) = [version_field (snd item)].
Proof.
  intros [y Hy]. unfold read_version, version_field, force in *.
  rewrite outcome_bind in Hy. rewrite calls_bind, py_get_calls. cbn [app].
  destruct (Py.outcome (py_get (snd item) version_key)) as [v|]; [|discriminate].
  rewrite outcome_bind in Hy. rewrite calls_bind, parse_version_calls.
  destruct (Py.outcome (parse_version limit v)); [reflexivity | discriminate].
Qed.

Lemma read_version_calls_all l :
  (forall item, In item l -> succeeds (read_version limit item)) ->
  List.concat (map (fun item => Py.calls (read_version limit item)) l) =
  map (fun item => version_field (snd item)) l.
Proof.
  induction l as [|x l IH]; intros H; [reflexivity|].
  cbn [map List.concat]. rewrite (read_version_calls x) by (apply H; now left).
  cbn [app]. f_equal. apply IH. intros y Hy. apply H. now right.
Qed.

Lemma filter_by_version_calls max_version minion_data r :
  Py.outcome (filter_by_version limit max_version minion_data) = Ok r ->
  Py.calls (filter_by_version limit max_version minion_data) =
  PyStr max_version ::
  map (fun item => version_field (snd item))
      (List.filter (fun item => responsive (snd item)) minion_data).
Proof.
  unfold filter_by_version. rewrite outcome_bind, calls_bind, parse_version_calls.
  destruct (Py.outcome (parse_version limit (PyStr max_version))) as [max|];
    [|discriminate].
  rewrite outcome_bind, calls_bind.
  rewrite (py_filter_calls _ _ unresponsive_test_calls).
  match goal with |- context [Py.outcome (py_filter ?p minion_data)] =>
    destruct (Py.outcome (py_filter p minion_data)) as [unr_items|];
      [|discriminate] end.
  rewrite outcome_bind, calls_bind.
  rewrite (py_filter_calls _ _ (fun item => py_contains_calls (snd item) _)).
  match goal with |- context [Py.outcome (py_filter ?p minion_data)] =>
    destruct (Py.outcome (py_filter p minion_data)) as [resp|] eqn:Hresp;
      [|discriminate] end.
  apply py_filter_ok in Hresp as [_ ->].
  rewrite outcome_bind, calls_bind.
  match goal with |- context [py_map ?f ?l] =>
    change f with (read_version limit);
    destruct (Py.outcome (py_map (read_version limit) l)) as [parsed|] eqn:Hparsed;
      [|discriminate] end.
  apply (py_map_ok ("", (0, 0))) in Hparsed as [Hread _].
  intros _. rewrite (py_map_calls _ _ Hread). cbn [app Py.calls Py.ret fst].
  rewrite app_nil_r. f_equal.
  rewrite List.Forall_forall in Hread.
  exact (read_version_calls_all _ Hread).
Qed.

Lemma filter_by_version_calls_in max_version minion_data c :
  In c (Py.calls (filter_by_version limit max_version minion_data)) ->
  c = PyStr max_version \/
  exists minion record,
    In (minion, record) minion_data /\ responsive record = true /\
    c = version_field record.
Proof.
  unfold filter_by_version. rewrite calls_bind, parse_version_calls.
  intros [<-|H]; [now left|]. right.
  destruct (Py.outcome (parse_version limit (PyStr max_version))) as [max|];
    [|destruct H].
  rewrite calls_bind in H.
  rewrite (py_filter_calls _ _ unresponsive_test_calls) in H. cbn [app] in H.
  match type of H with context [Py.outcome (py_filter ?p minion_data)] =>
    destruct (Py.outcome (py_filter p minion_data)) as [unr_items|];
      [|destruct H] end.
  rewrite calls_bind in H.
  rewrite (py_filter_calls _ _ (fun item => py_contains_calls (snd item) _)) in H.
  cbn [app] in H.
  match type of H with context [Py.outcome (py_filter ?p minion_data)] =>
    destruct (Py.outcome (py_filter p minion_data)) as [resp|] eqn:Hresp;
      [|destruct H] end.
  apply py_filter_ok in Hresp as [_ ->].
  rewrite calls_bind in H. apply in_app_or in H as [H|H].
  - apply py_map_calls_in in H as ([minion record] & Hin & Hc).
    apply filter_In in Hin as [Hin Hr].
    apply (read_version_calls_in (minion, record)) in Hc. eauto.
  - match type of H with context [Py.outcome ?m] =>
      destruct (Py.outcome m); destruct H end.
Qed.

(** C9: after a successful classification the unresponsive list names, in
    inventory order, exactly the minions whose record lacks the version
    field; the updatable and the higher-version list follow inventory order
    as well; and [parse_version] was entered once for the maximum version and
    then once for each minion that answered, in inventory order, hence never
    for an unresponsive one.  Whatever the outcome, it is entered only for
    the maximum version and for version fields of minions that answered. *)
Theorem lists_follow_inventory_order max_version minion_data :
  (forall upd high unr max,
     Py.outcome (filter_by_version limit max_version minion_data) = Ok (upd, high, unr) ->
     Py.outcome (parse_version limit (PyStr max_version)) = Ok max ->
     unr = map fst (List.filter (fun item => unresponsive (snd item)) minion_data) /\
     map fst upd = map fst (List.filter (is_updatable limit max) minion_data) /\
     map fst high = map fst (List.filter (is_higher limit max) minion_data) /\
     Py.calls (filter_by_version limit max_version minion_data) =
       PyStr max_version ::
       map (fun item => version_field (snd item))
           (List.filter (fun item => responsive (snd item)) minion_data)) /\
  (forall d, unresponsive (PyDict d) = true <-> d !! version_key = None) /\
  (forall d, responsive (PyDict d) = true <-> is_Some (d !! version_key)) /\
  (forall c,
     In c (Py.calls (filter_by_version limit max_version minion_data)) ->
     c = PyStr max_version \/
     exists minion record,
       In (minion, record) minion_data /\ responsive record = true /\
       c = version_field record).
Proof.
  split; [|split; [|split]].
  - intros upd high unr max Hok Hmax.
    pose proof (filter_by_version_calls _ _ _ Hok) as Hcalls.
    destruct (filter_by_version_ok limit _ _ _ _ _ Hok)
      as (max' & Hmax' & _ & _ & -> & -> & ->).
    rewrite Hmax in Hmax'. injection Hmax' as <-.
    rewrite !keys_rendered. auto.
  - intros d. unfold unresponsive, holds, force. cbn.
    destruct (d !! version_key) as [x|] eqn:E.
    + rewrite bool_decide_eq_true_2 by eauto. cbn. split; discriminate.
    + rewrite bool_decide_eq_false_2 by (intros [? [=]]). cbn. split; reflexivity.
  - intros d. unfold responsive, holds, force. cbn.
    apply bool_decide_eq_true.
  - apply filter_by_version_calls_in.
Qed.

(** C10: [parse_version] accepts what [int] accepts: white space around a
    piece, a leading plus sign and single underscores between digits. *)
Theorem parse_version_lenient :
  Py.outcome (parse_version limit (PyStr " 3 .5")) = Ok (3, 5) /\
  Py.outcome (parse_version limit (PyStr "+3.5")) = Ok (3, 5) /\
  Py.outcome (parse_version limit (PyStr "1_0.2")) = Ok (10, 2).
Proof. repeat split; reflexivity. Qed.

End Properties.

(** ** The properties at work on a small inventory *)

Lemma sample_inventory_keys : NoDup (map fst sample_inventory).
Proof. repeat constructor; cbn; intuition discriminate. Defined.

Lemma sample_inventory_classified :
  Py.outcome (filter_by_version 4300 "3007.6" sample_inventory) =
  Ok ([("h1", "3006.2")], [("h2", "3007.9")], ["h3"]).
Proof. vm_compute. reflexivity. Defined.

Lemma updatable_iff_both_lower_witness :
  (In "h1" (map fst [("h1", "3006.2")]) <-> 3006 < 3007 /\ 2 < 6) /\
  (In ("h1", py_str 3006 ++ "." ++ py_str 2) [("h1", "3006.2")] <->
   3006 < 3007 /\ 2 < 6) /\
  (3006 < 3007 -> 6 <= 2 -> ~ In "h1" (map fst [("h1", "3006.2")])) /\
  (3006 = 3007 -> 2 < 6 -> ~ In "h1" (map fst [("h1", "3006.2")])).
Proof.
  apply (updatable_iff_both_lower 4300 "3007.6" sample_inventory
           [("h1", "3006.2")] [("h2", "3007.9")] ["h3"]
           "h1" (sample_record "3006.2") "3006.2" 3006 2 3007 6).
  - exact sample_inventory_keys.
  - exact sample_inventory_classified.
  - vm_compute. reflexivity.
  - cbn. auto.
  - vm_compute. reflexivity.
  - vm_compute. reflexivity.
Defined.

Lemma higher_iff_same_major_greater_minor_witness :
  (In "h2" (map fst [("h2", "3007.9")]) <-> 3007 = 3007 /\ 9 > 6) /\
  (In ("h2", py_str 3007 ++ "." ++ py_str 9) [("h2", "3007.9")] <->
   3007 = 3007 /\ 9 > 6) /\
  (3007 <> 3007 -> ~ In "h2" (map fst [("h2", "3007.9")])).
Proof.
  apply (higher_iff_same_major_greater_minor 4300 "3007.6" sample_inventory
           [("h1", "3006.2")] [("h2", "3007.9")] ["h3"]
           "h2" (sample_record "3007.9") "3007.9" 3007 9 3007 6).
  - exact sample_inventory_keys.
  - exact sample_inventory_classified.
  - vm_compute. reflexivity.
  - cbn. auto.
  - vm_compute. reflexivity.
  - vm_compute. reflexivity.
Defined.

Lemma minion_in_exactly_one_bucket_witness :
  (forall minion, In minion (map fst sample_inventory) ->
     exactly_one (In minion ["h3"])
                 (In minion (map fst [("h1", "3006.2")]))
                 (In minion (map fst [("h2", "3007.9")]))
                 (in_range 4300 (3007, 6) sample_inventory minion)) /\
  NoDup ["h3"] /\ NoDup (map fst [("h1", "3006.2")]) /\
  NoDup (map fst [("h2", "3007.9")]).
Proof.
  apply (minion_in_exactly_one_bucket 4300 "3007.6" sample_inventory
           [("h1", "3006.2")] [("h2", "3007.9")] ["h3"] (3007, 6)).
  - exact sample_inventory_keys.
  - exact sample_inventory_classified.
  - vm_compute. reflexivity.
Defined.


Lemma parse_failure_aborts_classification_witness :
  Py.outcome (filter_by_version 4300 "v3007" sample_inventory) = Raise ValueError /\
  exists e, Py.outcome (filter_by_version 4300 "3007.6" broken_inventory) = Raise e.
Proof.
  split.
  - apply (proj1 (parse_failure_aborts_classification 4300 "v3007" sample_inventory)).
    reflexivity.
  - apply (proj2 (parse_failure_aborts_classification 4300 "3007.6" broken_inventory)
             "h2" (sample_record "3007.x") (PyStr "3007.x") ValueError).
    + cbn. auto.
    + vm_compute. reflexivity.
    + reflexivity.
Defined.

Lemma flagged_versions_rendered_witness :
  exists d v major minor,
    In ("h1", PyDict d) sample_inventory /\
    d !! version_key = Some (PyStr v) /\
    Py.outcome (parse_version 4300 (PyStr v)) = Ok (major, minor) /\
    "3006.2" = py_str major ++ "." ++ py_str minor.
Proof.
  apply (proj1 (flagged_versions_rendered 4300) "3007.6" sample_inventory
           [("h1", "3006.2")] [("h2", "3007.9")] ["h3"] "h1" "3006.2").
  - exact sample_inventory_classified.
  - left. cbn. auto.
Defined.

Lemma lists_follow_inventory_order_witness :
  ["h3"] = map fst (List.filter (fun item => unresponsive (snd item)) sample_inventory) /\
  map fst [("h1", "3006.2")] =
    map fst (List.filter (is_updatable 4300 (3007, 6)) sample_inventory) /\
  map fst [("h2", "3007.9")] =
    map fst (List.filter (is_higher 4300 (3007, 6)) sample_inventory) /\
  Py.calls (filter_by_version 4300 "3007.6" sample_inventory) =
    PyStr "3007.6" ::
    map (fun item => version_field (snd item))
        (List.filter (fun item => responsive (snd item)) sample_inventory).
Proof.
  apply (proj1 (lists_follow_inventory_order 4300 "3007.6" sample_inventory)
           [("h1", "3006.2")] [("h2", "3007.9")] ["h3"] (3007, 6)).
  - exact sample_inventory_classified.
  - vm_compute. reflexivity.
Defined.

(** ** Parsing what was rendered *)

Section RoundTrip.

Variable limit : N.

Lemma too_many_digits_mono d d' :
  (d' <= d)%N -> too_many_digits limit d = false -> too_many_digits limit d' = false.
Proof.
  unfold too_many_digits. intros Hle H.
  destruct (N.ltb_spec 640 d'); [|reflexivity].
  destruct (N.ltb_spec 0 limit); [|reflexivity].
  destruct (N.ltb_spec limit d'); [|reflexivity].
  destruct (N.ltb_spec 640 d); [|lia].
  destruct (N.ltb_spec limit d); [discriminate | lia].
Qed.

Lemma int_of_string_minus_numeral d :
  numeral d ->
  too_many_digits limit (N.of_nat (String.length d)) = false ->
  int_of_string limit (String "-" d) = Some (- decimal_value d).
Proof.
  intros [Hd Hne] Hlen. destruct d as [|c d]; [congruence|].
  cbn [all_digits] in Hd. apply andb_true_iff in Hd as [Hc Hs].
  unfold int_of_string. cbn [skip_spaces]. change (is_space "-") with false.
  cbn [take_sign]. change (Ascii.eqb "-" "-") with true. cbv iota.
  rewrite Hc, (scan_digits_numeral d _ _ Hs).
  replace (1 + N.of_nat (String.length d))%N
    with (N.of_nat (String.length (String c d)))
    by (cbn [String.length]; lia).
  rewrite Hlen. reflexivity.
Qed.

Lemma py_str_abs n :
  canonical (py_str (Z.abs n)) /\ decimal_value (py_str (Z.abs n)) = Z.abs n.
Proof. apply py_str_nonneg. lia. Qed.

Lemma int_of_py_str n :
  too_many_digits limit (decimal_digits n) = false ->
  int_of_string limit (py_str n) = Some n.
Proof.
  unfold decimal_digits. intros Hlen.
  destruct (py_str_abs n) as [[Hnum _] Hval].
  destruct (Z.ltb_spec n 0) as [Hneg|Hpos].
  - rewrite (py_str_neg n Hneg). replace (Z.abs n) with (- n) in * by lia.
    rewrite (int_of_string_minus_numeral _ Hnum Hlen), Hval. f_equal. lia.
  - replace (Z.abs n) with n in * by lia.
    now rewrite (int_of_string_numeral limit _ Hnum Hlen), Hval.
Qed.

Lemma py_str_no_dot n : has_char "." (py_str n) = false.
Proof.
  destruct (py_str_abs n) as [[[Hd _] _] _].
  destruct (Z.ltb_spec n 0) as [Hneg|Hpos].
  - rewrite (py_str_neg n Hneg). replace (Z.abs n) with (- n) in * by lia.
    cbn. now apply numeral_no_dot.
  - replace (Z.abs n) with n in * by lia. now apply numeral_no_dot.
Qed.

Lemma parse_rendered major minor :
  too_many_digits limit (decimal_digits major) = false ->
  too_many_digits limit (decimal_digits minor) = false ->
  Py.outcome (parse_version limit (PyStr (py_str major ++ "." ++ py_str minor))) =
  Ok (major, minor).
Proof.
  intros H1 H2. rewrite parse_version_str.
  change (py_str major ++ "." ++ py_str minor)
    with (py_str major ++ String "." (py_str minor)).
  rewrite (split_dot_app _ _ (py_str_no_dot major)).
  rewrite (split_dot_plain _ (py_str_no_dot minor)).
  unfold version_of_pieces.
  now rewrite (int_of_py_str major H1), (int_of_py_str minor H2).
Qed.

(** The digits read bound the value read. *)
Lemma scan_digits_bound n : forall s acc k v d r,
  (String.length s <= n)%nat ->
  0 <= acc < 10 ^ Z.of_N k ->
  scan_digits acc k s = Some (v, d, r) ->
  0 <= v < 10 ^ Z.of_N d.
Proof.
  assert (Hstep : forall acc k c, 0 <= acc < 10 ^ Z.of_N k -> is_digit c = true ->
            0 <= 10 * acc + digit_value c < 10 ^ Z.of_N (k + 1)).
  { intros acc k c Hacc Hc. pose proof (digit_value_range c Hc).
    rewrite N2Z.inj_add, Z.pow_add_r by lia. change (10 ^ Z.of_N 1) with 10. lia. }
  induction n as [|n IH]; intros s acc k v d r Hlen Hacc.
  - destruct s; [|cbn in Hlen; lia]. cbn. intros [= <- <- _]. exact Hacc.
  - destruct s as [|c s]; [cbn; intros [= <- <- _]; exact Hacc|].
    cbn [scan_digits]. cbn [String.length] in Hlen.
    destruct (is_digit c) eqn:Hc.
    + apply IH; [lia | now apply Hstep].
    + destruct (Ascii.eqb c "_"); [|intros [= <- <- _]; exact Hacc].
      destruct s as [|c' s]; [discriminate|].
      destruct (is_digit c') eqn:Hc'; [|discriminate].
      cbn [String.length] in Hlen. apply IH; [lia | now apply Hstep].
Qed.

Lemma scan_digits_count n : forall s acc k v d r,
  (String.length s <= n)%nat ->
  scan_digits acc k s = Some (v, d, r) -> (k <= d)%N.
Proof.
  induction n as [|n IH]; intros s acc k v d r Hlen.
  - destruct s; [|cbn in Hlen; lia]. cbn. intros [= _ <- _]. lia.
  - destruct s as [|c s]; [cbn; intros [= _ <- _]; lia|].
    cbn [scan_digits]. cbn [String.length] in Hlen.
    destruct (is_digit c).
    + intros H. apply IH in H; lia.
    + destruct (Ascii.eqb c "_"); [|intros [= _ <- _]; lia].
      destruct s as [|c' s]; [discriminate|].
      destruct (is_digit c'); [|discriminate].
      cbn [String.length] in Hlen. intros H. apply IH in H; lia.
Qed.

Lemma canonical_length s d :
  canonical s -> decimal_value s < 10 ^ Z.of_N d -> (0 < d)%N ->
  (N.of_nat (String.length s) <= d)%N.
Proof.
  intros [[Hd Hne] [->|(c & s' & -> & Hc)]] Hv Hpos; [cbn; lia|].
  cbn [all_digits] in Hd. apply andb_true_iff in Hd as [Hdc Hds].
  cbn [decimal_value String.length] in *.
  pose proof (decimal_value_nonneg s' Hds).
  assert (1 <= digit_value c).
  { pose proof (digit_value_range c Hdc).
    destruct (Z.eq_dec (digit_value c) 0) as [E|]; [|lia].
    exfalso. apply Hc. apply is_digit_range in Hdc. unfold digit_value in E.
    assert (N_of_ascii c = 48%N) as E' by lia.
    rewrite <- (ascii_N_embedding c), E'. reflexivity. }
  assert (Hp : 0 < 10 ^ Z.of_nat (String.length s')) by (apply Z.pow_pos_nonneg; lia).
  assert (10 ^ Z.of_nat (String.length s') < 10 ^ Z.of_N d) by nia.
  apply Z.pow_lt_mono_r_iff in H1; lia.
Qed.

Lemma int_of_string_digits p z :
  int_of_string limit p = Some z -> too_many_digits limit (decimal_digits z) = false.
Proof.
  unfold int_of_string.
  destruct (take_sign (skip_spaces p)) as [negative body].
  destruct body as [|c rest]; [discriminate|].
  destruct (is_digit c) eqn:Hc; [|discriminate].
  destruct (scan_digits (digit_value c) 1 rest) as [[[v d] r]|] eqn:Hscan; [|discriminate].
  destruct (too_many_digits limit d) eqn:Hd; [discriminate|].
  destruct (only_spaces r); [|discriminate]. intros [= <-].
  assert (Hb : 0 <= v < 10 ^ Z.of_N d /\ (0 < d)%N).
  { split.
    - apply (scan_digits_bound _ _ _ _ _ _ _ (Nat.le_refl _)) in Hscan; [exact Hscan|].
      pose proof (digit_value_range c Hc). change (10 ^ Z.of_N 1) with 10. lia.
    - pose proof (scan_digits_count _ _ _ _ _ _ _ (Nat.le_refl _) Hscan). lia. }
  destruct Hb as [Hv Hpos].
  apply (too_many_digits_mono d); [|exact Hd].
  unfold decimal_digits.
  replace (Z.abs (if negative then - v else v)) with v by (destruct negative; lia).
  destruct (py_str_nonneg v (proj1 Hv)) as [Hcan Hval].
  apply canonical_length; [exact Hcan | rewrite Hval; lia | exact Hpos].
Qed.

Lemma parse_version_digits s major minor :
  Py.outcome (parse_version limit (PyStr s)) = Ok (major, minor) ->
  too_many_digits limit (decimal_digits major) = false /\
  too_many_digits limit (decimal_digits minor) = false.
Proof.
  rewrite parse_version_str. unfold version_of_pieces.
  destruct (split_dot s) as [|p0 rest]; [discriminate|].
  destruct (int_of_string limit p0) as [a|] eqn:E0; [|discriminate].
  apply int_of_string_digits in E0.
  destruct rest as [|p1 tail]; [intros [= <- <-]; split; [exact E0 | reflexivity]|].
  destruct (int_of_string limit p1) as [b|] eqn:E1; [|discriminate].
  apply int_of_string_digits in E1. intros [= <- <-]. auto.
Qed.

End RoundTrip.

(** ** Further properties of [parse_version] *)

(** X1: rendering a version as the report does and parsing the text gives
    the version back, negative numbers included, as long as neither number
    is longer than the interpreter's digit limit. *)
Theorem render_then_parse limit major minor :
  too_many_digits limit (decimal_digits major) = false ->
  too_many_digits limit (decimal_digits minor) = false ->
  Py.outcome (parse_version limit (PyStr (py_str major ++ "." ++ py_str minor))) =
  Ok (major, minor).
Proof. apply parse_rendered. Qed.

Lemma render_then_parse_witness :
  Py.outcome (parse_version 4300 (PyStr (py_str (-3) ++ "." ++ py_str 120))) =
  Ok (-3, 120).
Proof. apply (render_then_parse 4300 (-3) 120); reflexivity. Defined.

(** X2: the rendering of a parsed version parses to that same version,
    whatever the digit limit: rendering never makes a number longer than the
    text it was read from. *)
Theorem parsed_version_renders_to_itself limit s major minor :
  Py.outcome (parse_version limit (PyStr s)) = Ok (major, minor) ->
  Py.outcome (parse_version limit (PyStr (py_str major ++ "." ++ py_str minor))) =
  Ok (major, minor).
Proof.
  intros H. destruct (parse_version_digits limit s major minor H) as [H1 H2].
  now apply parse_rendered.
Qed.

Lemma parsed_version_renders_to_itself_witness :
  Py.outcome (parse_version 4300 (PyStr (py_str 7 ++ "." ++ py_str 10))) = Ok (7, 10).
Proof.
  apply (parsed_version_renders_to_itself 4300 " 007 .1_0.rc1" 7 10). reflexivity.
Defined.

(** X3: a version string with an empty first or second piece is rejected:
    one that starts with a dot, one that ends with its first dot ("3."), and
    one whose first dot is followed by another dot ("3..5"). *)
Theorem empty_piece_rejected limit :
  (forall s, Py.outcome (parse_version limit (PyStr (String "." s))) = Raise ValueError) /\
  (forall p, has_char "." p = false ->
     Py.outcome (parse_version limit (PyStr (p ++ "."))) = Raise ValueError) /\
  (forall p s, has_char "." p = false ->
     Py.outcome (parse_version limit (PyStr (p ++ ".." ++ s))) = Raise ValueError).
Proof.
  split; [|split].
  - intros s. rewrite parse_version_str, split_dot_cons. reflexivity.
  - intros p Hp. rewrite parse_version_str.
    change (p ++ ".") with (p ++ String "." EmptyString).
    rewrite (split_dot_app p _ Hp). cbn.
    destruct (int_of_string limit p); reflexivity.
  - intros p s Hp. rewrite parse_version_str.
    change (p ++ ".." ++ s) with (p ++ String "." (String "." s)).
    rewrite (split_dot_app p _ Hp), split_dot_cons. cbn.
    destruct (int_of_string limit p); reflexivity.
Qed.

Lemma empty_piece_rejected_witness :
  Py.outcome (parse_version 4300 (PyStr ("3007" ++ "."))) = Raise ValueError.
Proof. apply (proj1 (proj2 (empty_piece_rejected 4300)) "3007"). reflexivity. Defined.

(** ** Where a traversal stops *)

Lemma py_filter_raise {A} (p : A -> Py.t bool) l e :
  Py.outcome (py_filter p l) = Raise e <->
  exists l1 x l2, l = (l1 ++ x :: l2)%list /\
                  Forall (fun y => succeeds (p y)) l1 /\
                  Py.outcome (p x) = Raise e.
Proof.
  induction l as [|x l IH]; cbn [py_filter].
  - split; [discriminate|]. intros (l1 & y & l2 & E & _). destruct l1; discriminate.
  - rewrite outcome_bind. destruct (Py.outcome (p x)) as [b|e'] eqn:Hx.
    + rewrite outcome_bind.
      destruct (Py.outcome (py_filter p l)) as [rest|e''] eqn:Hl.
      * split; [discriminate|]. intros (l1 & y & l2 & E & Hall & Hy).
        destruct l1 as [|z l1]; cbn in E; injection E as -> ->; [congruence|].
        inversion Hall; subst.
        assert (H : Ok rest = Raise e :> result (list A)); [|discriminate].
        apply IH. eauto 6.
      * split.
        -- intros [= ->]. destruct ((proj1 IH) eq_refl) as (l1 & y & l2 & -> & Hall & Hy).
           exists (x :: l1), y, l2. repeat split; auto.
           constructor; [exists b; exact Hx | exact Hall].
        -- intros (l1 & y & l2 & E & Hall & Hy).
           destruct l1 as [|z l1]; cbn in E; injection E as -> ->; [congruence|].
           inversion Hall; subst. apply IH. eauto 6.
    + split.
      * intros [= ->]. exists [], x, l. repeat split; auto.
      * intros (l1 & y & l2 & E & Hall & Hy).
        destruct l1 as [|z l1]; cbn in E; injection E as -> ->; [congruence|].
        inversion Hall as [|? ? [b Hb] _]; subst. congruence.
Qed.

Lemma py_map_raise {A B} (f : A -> Py.t B) l e :
  Py.outcome (py_map f l) = Raise e <->
  exists l1 x l2, l = (l1 ++ x :: l2)%list /\
                  Forall (fun y => succeeds (f y)) l1 /\
                  Py.outcome (f x) = Raise e.
Proof.
  induction l as [|x l IH]; cbn [py_map].
  - split; [discriminate|]. intros (l1 & y & l2 & E & _). destruct l1; discriminate.
  - rewrite outcome_bind. destruct (Py.outcome (f x)) as [b|e'] eqn:Hx.
    + rewrite outcome_bind.
      destruct (Py.outcome (py_map f l)) as [rest|e''] eqn:Hl.
      * split; [discriminate|]. intros (l1 & y & l2 & E & Hall & Hy).
        destruct l1 as [|z l1]; cbn in E; injection E as -> ->; [congruence|].
        inversion Hall; subst.
        assert (H : Ok rest = Raise e :> result (list B)); [|discriminate].
        apply IH. eauto 6.
      * split.
        -- intros [= ->]. destruct ((proj1 IH) eq_refl) as (l1 & y & l2 & -> & Hall & Hy).
           exists (x :: l1), y, l2. repeat split; auto.
           constructor; [exists b; exact Hx | exact Hall].
        -- intros (l1 & y & l2 & E & Hall & Hy).
           destruct l1 as [|z l1]; cbn in E; injection E as -> ->; [congruence|].
           inversion Hall; subst. apply IH. eauto 6.
    + split.
      * intros [= ->]. exists [], x, l. repeat split; auto.
      * intros (l1 & y & l2 & E & Hall & Hy).
        destruct l1 as [|z l1]; cbn in E; injection E as -> ->; [congruence|].
        inversion Hall as [|? ? [b Hb] _]; subst. congruence.
Qed.

(** ** When the classification succeeds and how it fails *)

Section Outcomes.

Variable limit : N.

Lemma read_version_record item id :
  succeeds (read_version limit item) -> succeeds (read_version limit (id, snd item)).
Proof.
  unfold succeeds, read_version. rewrite !outcome_bind. cbn [snd].
  destruct (Py.outcome (py_get (snd item) version_key)) as [v|]; [|intros [? [=]]].
  rewrite !outcome_bind.
  destruct (Py.outcome (parse_version limit v)); [eauto | intros [? [=]]].
Qed.

Lemma classifiable_spec record id :
  classifiable limit record <->
  succeeds (py_contains record version_key) /\
  (responsive record = true -> succeeds (read_version limit (id, record))).
Proof.
  unfold succeeds, read_version, responsive, holds, force.
  destruct record; cbn [classifiable py_contains py_get Py.outcome Py.ret Py.raise snd fst].
  1-3: split; [intros [] | intros [[? H] _]; discriminate H].
  - rewrite outcome_bind. cbn. unfold responsive, holds, force. cbn.
    destruct (is_substring version_key s).
    + split; [discriminate | intros [_ H]; destruct (H eq_refl) as [? [=]]].
    + split; [split; [eauto | discriminate] | reflexivity].
  - rewrite outcome_bind. cbn. unfold responsive, holds, force. cbn.
    match goal with |- context [existsb ?f items] => destruct (existsb f items) end.
    + split; [discriminate | intros [_ H]; destruct (H eq_refl) as [? [=]]].
    + split; [split; [eauto | discriminate] | reflexivity].
  - rewrite outcome_bind. cbn [Py.outcome Py.ret snd fst].
    destruct (d !! version_key) as [v|] eqn:Hv.
    + rewrite bool_decide_eq_true_2 by eauto. rewrite outcome_bind.
      unfold succeeds. split.
      * intros [a Ha]. split; [eauto|]. intros _. rewrite Ha. cbn. eauto.
      * intros [_ H]. destruct (H eq_refl) as [y Hy].
        destruct (Py.outcome (parse_version limit v)); [eauto | discriminate Hy].
    + rewrite bool_decide_eq_false_2 by (intros [? [=]]).
      split; [split; [eauto | discriminate] | reflexivity].
Qed.

Lemma filter_by_version_succeeds max_version minion_data :
  succeeds (parse_version limit (PyStr max_version)) ->
  Forall (fun item => classifiable limit (snd item)) minion_data ->
  succeeds (filter_by_version limit max_version minion_data).
Proof.
  intros [max Hmax] Hall. rewrite List.Forall_forall in Hall.
  assert (Hc : forall item, In item minion_data ->
            succeeds (py_contains (snd item) version_key) /\
            (responsive (snd item) = true -> succeeds (read_version limit item))).
  { intros [id record] Hin. apply (classifiable_spec record id). exact (Hall _ Hin). }
  unfold succeeds, filter_by_version. rewrite outcome_bind, Hmax, outcome_bind.
  match goal with |- context [py_filter ?p minion_data] =>
    rewrite (py_filter_succeeds p minion_data) end.
  2:{ apply List.Forall_forall. intros item Hin.
      apply unresponsive_test_succeeds, Hc, Hin. }
  rewrite outcome_bind.
  match goal with |- context [py_filter ?p minion_data] =>
    rewrite (py_filter_succeeds p minion_data) end.
  2:{ apply List.Forall_forall. intros item Hin. apply Hc, Hin. }
  rewrite outcome_bind.
  match goal with |- context [py_map ?f ?l] =>
    change f with (read_version limit);
    rewrite (py_map_succeeds ("", (0, 0)) (read_version limit) l) end.
  2:{ apply List.Forall_forall. intros item Hin. apply filter_In in Hin as [Hin Hr].
      apply Hc; assumption. }
  cbn. eauto.
Qed.

Lemma filter_by_version_classifiable max_version minion_data :
  succeeds (filter_by_version limit max_version minion_data) ->
  succeeds (parse_version limit (PyStr max_version)) /\
  Forall (fun item => classifiable limit (snd item)) minion_data.
Proof.
  intros [[[upd high] unr] Hok].
  destruct (filter_by_version_ok limit _ _ _ _ _ Hok) as (max & Hmax & Hdef & Hver & _).
  split; [exists max; exact Hmax|].
  rewrite List.Forall_forall in *. intros [id record] Hin.
  apply (classifiable_spec record id). split; [exact (Hdef _ Hin)|].
  intros Hr. destruct (Hver _ Hin Hr) as [Hget Hhost]. cbn [snd] in *.
  unfold succeeds. rewrite (read_version_outcome limit (id, record) Hget).
  cbn [snd]. rewrite Hhost. eauto.
Qed.

(** X4: the classification succeeds exactly when the maximum version parses
    and every record is a dictionary whose version field, if present,
    parses, or another container that does not hold the key. *)
Theorem classification_succeeds_iff max_version minion_data :
  succeeds (filter_by_version limit max_version minion_data) <->
  succeeds (parse_version limit (PyStr max_version)) /\
  Forall (fun item => classifiable limit (snd item)) minion_data.
Proof.
  split; [apply filter_by_version_classifiable|].
  intros [Hmax Hall]. now apply filter_by_version_succeeds.
Qed.

End Outcomes.

Section Exceptions.

Variable limit : N.

Lemma parse_version_raise v e :
  Py.outcome (parse_version limit v) = Raise e ->
  (e = ValueError /\ exists s, v = PyStr s) \/
  (e = AttributeError /\ forall s, v <> PyStr s).
Proof.
  destruct v; try (cbn; intros [= <-]; right; split; [reflexivity | discriminate]).
  rewrite parse_version_str. intros H. left. split; [|eauto].
  unfold version_of_pieces in H.
  destruct (split_dot_nonempty s) as (p0 & rest & E). rewrite E in H.
  destruct (int_of_string limit p0); [|now injection H as <-].
  destruct rest as [|p1 tail]; [discriminate|].
  destruct (int_of_string limit p1); [discriminate | now injection H as <-].
Qed.

Lemma py_contains_raise record e :
  Py.outcome (py_contains record version_key) = Raise e ->
  e = TypeError /\ not_a_container record.
Proof. destruct record; cbn; intros [= <-]; auto. Qed.

Lemma py_contains_not_a_container record :
  not_a_container record ->
  Py.outcome (py_contains record version_key) = Raise TypeError.
Proof. destruct record; cbn; intros []; reflexivity. Qed.

Lemma read_version_raise item e :
  Py.outcome (read_version limit item) = Raise e ->
  e = ValueError \/ e = AttributeError.
Proof.
  unfold read_version. rewrite outcome_bind.
  destruct (Py.outcome (py_get (snd item) version_key)) as [v|e'] eqn:Hg.
  - rewrite outcome_bind.
    destruct (Py.outcome (parse_version limit v)) as [a|e''] eqn:Hp; [discriminate|].
    intros [= <-]. apply parse_version_raise in Hp as [[-> _]|[-> _]]; auto.
  - intros [= <-]. destruct (snd item); cbn in Hg;
      first [discriminate Hg | injection Hg as <-; auto].
Qed.

Lemma filter_by_version_raise max_version minion_data e :
  Py.outcome (filter_by_version limit max_version minion_data) = Raise e ->
  Py.outcome (parse_version limit (PyStr max_version)) = Raise e \/
  (exists item, In item minion_data /\
                Py.outcome (py_contains (snd item) version_key) = Raise e) \/
  (exists item, In item minion_data /\
                Py.outcome (read_version limit item) = Raise e).
Proof.
  unfold filter_by_version. rewrite outcome_bind.
  destruct (Py.outcome (parse_version limit (PyStr max_version))) as [max|e0];
    [|intros [= ->]; now left].
  intros H. right. revert H. rewrite outcome_bind.
  match goal with |- context [py_filter ?p minion_data] =>
    destruct (Py.outcome (py_filter p minion_data)) as [unr_items|e1] eqn:H1 end.
  - rewrite outcome_bind.
    match goal with |- context [py_filter ?p minion_data] =>
      destruct (Py.outcome (py_filter p minion_data)) as [resp|e2] eqn:H2 end.
    + apply py_filter_ok in H2 as [_ ->]. rewrite outcome_bind.
      match goal with |- context [py_map ?f ?l] =>
        change f with (read_version limit);
        destruct (Py.outcome (py_map (read_version limit) l)) as [parsed|e3] eqn:H3 end;
        [discriminate|].
      intros [= ->]. apply py_map_raise in H3 as (l1 & x & l2 & E & _ & Hx).
      right. exists x. split; [|exact Hx].
      assert (Hin : In x (l1 ++ x :: l2)) by (apply in_or_app; right; now left).
      rewrite <- E in Hin. now apply filter_In in Hin as [Hin _].
    + intros [= ->]. apply py_filter_raise in H2 as (l1 & x & l2 & -> & _ & Hx).
      left. exists x. split; [apply in_or_app; right; now left | exact Hx].
  - intros [= ->]. apply py_filter_raise in H1 as (l1 & x & l2 & -> & _ & Hx).
    left. exists x. split; [apply in_or_app; right; now left|].
    rewrite outcome_bind in Hx.
    destruct (Py.outcome (py_contains (snd x) "saltversion")) eqn:Hc;
      [discriminate | injection Hx as <-; exact Hc].
Qed.

Lemma py_filter_type_error (minion_data : list (string * py_value)) :
  Exists (fun item => not_a_container (snd item)) minion_data ->
  Py.outcome (py_filter (fun item => b <- py_contains (snd item) "saltversion" ;;
                                     Py.ret (negb b)) minion_data) = Raise TypeError /\
  Py.calls (py_filter (fun item => b <- py_contains (snd item) "saltversion" ;;
                                   Py.ret (negb b)) minion_data) = [].
Proof.
  intros H. split; [|apply py_filter_calls; intros x; apply unresponsive_test_calls].
  induction minion_data as [|x l IH]; [inversion H|].
  cbn [py_filter]. rewrite outcome_bind, outcome_bind.
  destruct (Py.outcome (py_contains (snd x) "saltversion")) as [b|e] eqn:Hx.
  - cbn. rewrite outcome_bind, IH; [reflexivity|].
    inversion H as [? ? Hn|]; subst; [|assumption].
    apply py_contains_not_a_container in Hn.
    change version_key with "saltversion" in Hn. congruence.
  - now apply py_contains_raise in Hx as [-> _].
Qed.

(** X5: the classification raises nothing but [ValueError],
    [AttributeError] and [TypeError]; in particular the indexing [parts[0]]
    and [parts[1]] of [parse_version] never raises [IndexError]. *)
Theorem classification_exceptions max_version minion_data e :
  Py.outcome (filter_by_version limit max_version minion_data) = Raise e ->
  e = ValueError \/ e = AttributeError \/ e = TypeError.
Proof.
  intros H. apply filter_by_version_raise in H as [H|[(item & _ & H)|(item & _ & H)]].
  - apply parse_version_raise in H as [[-> _]|[-> _]]; auto.
  - apply py_contains_raise in H as [-> _]. auto.
  - apply read_version_raise in H as [->| ->]; auto.
Qed.

(** X6: when the maximum version parses, the classification raises
    [TypeError] exactly when some record is [None], a Boolean or a number;
    it then raises before the version of any minion is parsed. *)
Theorem type_error_iff_record_not_a_container max_version minion_data :
  succeeds (parse_version limit (PyStr max_version)) ->
  (Py.outcome (filter_by_version limit max_version minion_data) = Raise TypeError <->
   Exists (fun item => not_a_container (snd item)) minion_data) /\
  (Exists (fun item => not_a_container (snd item)) minion_data ->
   Py.calls (filter_by_version limit max_version minion_data) = [PyStr max_version]).
Proof.
  intros [max Hmax]. split; [split|].
  - intros H. apply filter_by_version_raise in H as [H|[(item & Hin & H)|(item & _ & H)]].
    + congruence.
    + apply py_contains_raise in H as [_ H]. apply List.Exists_exists. eauto.
    + apply read_version_raise in H as [H|H]; discriminate.
  - intros H. apply py_filter_type_error in H as [H _].
    unfold filter_by_version. now rewrite outcome_bind, Hmax, outcome_bind, H.
  - intros H. apply py_filter_type_error in H as [H Hc].
    unfold filter_by_version.
    now rewrite calls_bind, parse_version_calls, Hmax, calls_bind, Hc, H.
Qed.

End Exceptions.

(** ** Sizes and concatenation *)

Section Composition.

Variable limit : N.

Lemma filter_by_version_value max_version minion_data max :
  Py.outcome (parse_version limit (PyStr max_version)) = Ok max ->
  Forall (fun item => classifiable limit (snd item)) minion_data ->
  Py.outcome (filter_by_version limit max_version minion_data) =
  Ok (map (rendered limit) (List.filter (is_updatable limit max) minion_data),
      map (rendered limit) (List.filter (is_higher limit max) minion_data),
      map fst (List.filter (fun item => unresponsive (snd item)) minion_data)).
Proof.
  intros Hmax Hall.
  destruct (filter_by_version_succeeds limit max_version minion_data) as [[[u h] n] Hok];
    [exists max; exact Hmax | exact Hall |].
  destruct (filter_by_version_ok limit _ _ _ _ _ Hok) as (max' & Hmax' & _ & _ & -> & -> & ->).
  rewrite Hmax in Hmax'. injection Hmax' as <-. exact Hok.
Qed.

Lemma four_way_lengths max (minion_data : list (string * py_value)) :
  Forall (fun item => succeeds (py_contains (snd item) version_key)) minion_data ->
  (List.length (List.filter (fun item => unresponsive (snd item)) minion_data)
   + List.length (List.filter (is_updatable limit max) minion_data)
   + List.length (List.filter (is_higher limit max) minion_data)
   + List.length (List.filter (is_in_range limit max) minion_data)
   = List.length minion_data)%nat.
Proof.
  induction 1 as [|x l [b Hb] _ IH]; [reflexivity|].
  cbn [List.filter].
  destruct (record_tests (snd x) b Hb) as [Hr Hu].
  unfold is_updatable at 1, is_higher at 1, is_in_range at 1. rewrite Hr, Hu.
  destruct b; cbn [negb andb List.length]; [|lia].
  destruct (below max (version_or_zero limit (snd x))) eqn:Hbelow.
  - rewrite (below_not_above _ _ Hbelow). cbn [negb andb List.length]. lia.
  - destruct (above max (version_or_zero limit (snd x)));
      cbn [negb andb List.length]; lia.
Qed.

(** X7: after a successful classification the sizes of the three lists and
    the number of minions in range add up to the size of the inventory; so
    the lists never hold more entries than there are minions. *)
Theorem list_sizes_add_up max_version minion_data upd high unr max :
  Py.outcome (filter_by_version limit max_version minion_data) = Ok (upd, high, unr) ->
  Py.outcome (parse_version limit (PyStr max_version)) = Ok max ->
  (List.length unr + List.length upd + List.length high
   + List.length (List.filter (is_in_range limit max) minion_data)
   = List.length minion_data)%nat.
Proof.
  intros Hok Hmax.
  destruct (filter_by_version_ok limit _ _ _ _ _ Hok) as (max' & Hmax' & Hdef & _ & -> & -> & ->).
  rewrite Hmax in Hmax'. injection Hmax' as <-.
  rewrite !length_map. now apply four_way_lengths.
Qed.

(** X8: classifying two inventories one after the other in one call
    succeeds exactly when classifying each of them succeeds, and each of the
    three lists is then the concatenation of the lists of the two parts. *)
Theorem classification_of_concatenation max_version data1 data2 upd high unr :
  Py.outcome (filter_by_version limit max_version (data1 ++ data2)) = Ok (upd, high, unr) <->
  exists upd1 high1 unr1 upd2 high2 unr2,
    Py.outcome (filter_by_version limit max_version data1) = Ok (upd1, high1, unr1) /\
    Py.outcome (filter_by_version limit max_version data2) = Ok (upd2, high2, unr2) /\
    upd = (upd1 ++ upd2)%list /\ high = (high1 ++ high2)%list /\
    unr = (unr1 ++ unr2)%list.
Proof.
  split.
  - intros Hok.
    destruct (filter_by_version_classifiable limit _ _ (ex_intro _ _ Hok)) as [[max Hmax] Hall].
    apply Forall_app in Hall as [H1 H2].
    rewrite (filter_by_version_value _ _ max Hmax (proj2 (Forall_app _ _ _) (conj H1 H2))) in Hok.
    injection Hok as <- <- <-.
    do 6 eexists.
    split; [exact (filter_by_version_value _ _ max Hmax H1)|].
    split; [exact (filter_by_version_value _ _ max Hmax H2)|].
    now rewrite !filter_app, !map_app.
  - intros (u1 & h1 & n1 & u2 & h2 & n2 & Hok1 & Hok2 & -> & -> & ->).
    destruct (filter_by_version_classifiable limit _ _ (ex_intro _ _ Hok1)) as [[max Hmax] H1].
    destruct (filter_by_version_classifiable limit _ _ (ex_intro _ _ Hok2)) as [_ H2].
    rewrite (filter_by_version_value _ _ max Hmax H1) in Hok1.
    rewrite (filter_by_version_value _ _ max Hmax H2) in Hok2.
    injection Hok1 as <- <- <-. injection Hok2 as <- <- <-.
    rewrite (filter_by_version_value _ _ max Hmax (proj2 (Forall_app _ _ _) (conj H1 H2))).
    now rewrite !filter_app, !map_app.
Qed.

Lemma filter_none {A} (p : A -> bool) l :
  Forall (fun x => p x = false) l -> List.filter p l = [].
Proof. induction 1 as [|x l Hx _ IH]; cbn; [reflexivity | now rewrite Hx]. Qed.

Lemma filter_all {A} (p : A -> bool) l :
  Forall (fun x => p x = true) l -> List.filter p l = l.
Proof. induction 1 as [|x l Hx _ IH]; cbn; [reflexivity | now rewrite Hx, IH]. Qed.

Lemma dict_without_version d :
  d !! version_key = None ->
  responsive (PyDict d) = false /\ unresponsive (PyDict d) = true.
Proof.
  intros Hd. unfold responsive, unresponsive, holds, force. cbn.
  rewrite bool_decide_eq_false_2 by (rewrite Hd; intros [? [=]]). auto.
Qed.

(** X9: when the maximum version parses and no record has a version field,
    the classification succeeds, lists every minion as unresponsive in
    inventory order, and parses nothing but the maximum version.  For the
    empty inventory all three lists are empty. *)
Theorem all_unresponsive max_version minion_data :
  succeeds (parse_version limit (PyStr max_version)) ->
  Forall (fun item => exists d, snd item = PyDict d /\ d !! version_key = None)
         minion_data ->
  Py.outcome (filter_by_version limit max_version minion_data) =
    Ok ([], [], map fst minion_data) /\
  Py.calls (filter_by_version limit max_version minion_data) = [PyStr max_version].
Proof.
  intros [max Hmax] Hall. rewrite List.Forall_forall in Hall.
  assert (Hok : Py.outcome (filter_by_version limit max_version minion_data) =
                Ok ([], [], map fst minion_data)).
  { rewrite (filter_by_version_value _ _ max Hmax).
    - rewrite (filter_none (is_updatable limit max)), (filter_none (is_higher limit max)),
        (filter_all (fun item => unresponsive (snd item))); [reflexivity| | |];
        apply List.Forall_forall; intros item Hin;
        destruct (Hall _ Hin) as (d & E & Hd);
        destruct (dict_without_version d Hd) as [Hr Hu];
        unfold is_updatable, is_higher; rewrite E; rewrite ?Hr, ?Hu; reflexivity.
    - apply List.Forall_forall. intros item Hin.
      destruct (Hall _ Hin) as (d & -> & Hd). cbn. now rewrite Hd. }
  split; [exact Hok|].
  rewrite (filter_by_version_calls limit _ _ _ Hok).
  rewrite filter_none; [reflexivity|].
  apply List.Forall_forall. intros item Hin.
  destruct (Hall _ Hin) as (d & -> & Hd). now destruct (dict_without_version d Hd).
Qed.

End Composition.

(** ** Fields other than the version *)

Lemma agree_eq {A} (m m' : Py.t A) : agree eq m m' -> m = m'.
Proof.
  destruct m as [log [a|e]], m' as [log' [a'|e']];
    unfold agree, Py.calls, Py.outcome; cbn [fst snd]; intros [-> H];
    try destruct H; reflexivity.
Qed.

Lemma agree_ret {A B} (R : A -> B -> Prop) a b :
  R a b -> agree R (Py.ret a) (Py.ret b).
Proof. intros H. split; [reflexivity | exact H]. Qed.

Lemma agree_bind {A A' B B'} (R : A -> A' -> Prop) (S : B -> B' -> Prop)
    (m : Py.t A) (m' : Py.t A') (k : A -> Py.t B) (k' : A' -> Py.t B') :
  agree R m m' ->
  (forall a a', R a a' -> agree S (k a) (k' a')) ->
  agree S (Py.bind m k) (Py.bind m' k').
Proof.
  intros [Hc Ho] Hk. unfold agree. rewrite !calls_bind, !outcome_bind, Hc.
  destruct (Py.outcome m) as [a|e], (Py.outcome m') as [a'|e']; try destruct Ho.
  - destruct (Hk a a' Ho) as [Hc' Ho']. now rewrite Hc'.
  - auto.
Qed.

Lemma py_filter_agree {A B} (R : A -> B -> Prop) p q l l' :
  Forall2 R l l' -> (forall x y, R x y -> agree eq (p x) (q y)) ->
  agree (Forall2 R) (py_filter p l) (py_filter q l').
Proof.
  intros Hl Hp. induction Hl as [|x y l l' Hxy Hl IH]; cbn [py_filter].
  - apply agree_ret. constructor.
  - apply (agree_bind eq); [now apply Hp|]. intros b ? <-.
    apply (agree_bind (Forall2 R)); [exact IH|]. intros rest rest' Hr.
    apply agree_ret. destruct b; [constructor|]; assumption.
Qed.

Lemma py_map_agree {A B C} (R : A -> B -> Prop) (f : A -> Py.t C) g l l' :
  Forall2 R l l' -> (forall x y, R x y -> agree eq (f x) (g y)) ->
  agree eq (py_map f l) (py_map g l').
Proof.
  intros Hl Hf. induction Hl as [|x y l l' Hxy Hl IH]; cbn [py_map].
  - now apply agree_ret.
  - apply (agree_bind eq); [now apply Hf|]. intros c ? <-.
    apply (agree_bind eq); [exact IH|]. intros rest ? <-. now apply agree_ret.
Qed.

Lemma agree_refl {A} (m : Py.t A) : agree eq m m.
Proof. split; [reflexivity|]. destruct (Py.outcome m); reflexivity. Qed.

Lemma same_version_field_keys l l' :
  Forall2 same_version_field l l' -> map fst l = map fst l'.
Proof.
  induction 1 as [|x y l l' [Hk _] _ IH]; cbn; [reflexivity | now rewrite Hk, IH].
Qed.

(** X10: only the version field of a record matters.  Two inventories that
    name the same minions in the same order, with dictionaries that agree on
    the version field, are classified alike, whatever else the records
    hold. *)
Theorem other_fields_ignored limit max_version data data' :
  Forall2 same_version_field data data' ->
  filter_by_version limit max_version data = filter_by_version limit max_version data'.
Proof.
  intros H. apply agree_eq. unfold filter_by_version.
  assert (Hcontains : forall x y, same_version_field x y ->
            py_contains (snd x) "saltversion" = py_contains (snd y) "saltversion").
  { intros x y (_ & d & d' & -> & -> & Hd). cbn.
    change "saltversion" with version_key. now rewrite Hd. }
  apply (agree_bind eq); [apply agree_refl|]. intros max ? <-.
  apply (agree_bind (Forall2 same_version_field)).
  { apply py_filter_agree; [exact H|]. intros x y Hxy.
    rewrite (Hcontains x y Hxy). apply agree_refl. }
  intros unr unr' Hunr.
  apply (agree_bind (Forall2 same_version_field)).
  { apply py_filter_agree; [exact H|]. intros x y Hxy.
    rewrite (Hcontains x y Hxy). apply agree_refl. }
  intros resp resp' Hresp.
  apply (agree_bind eq).
  { apply (py_map_agree same_version_field); [exact Hresp|].
    intros x y (Hk & d & d' & Hx & Hy & Hd). rewrite Hx, Hy, Hk. cbn [py_get].
    change "saltversion" with version_key. rewrite Hd. apply agree_refl. }
  intros parsed ? <-. apply agree_ret.
  now rewrite (same_version_field_keys _ _ Hunr).
Qed.

Lemma other_fields_ignored_witness :
  filter_by_version 4300 "3007.6" detailed_inventory =
  filter_by_version 4300 "3007.6" sample_inventory.
Proof.
  apply (other_fields_ignored 4300 "3007.6" detailed_inventory sample_inventory).
  repeat constructor; cbn [fst snd]; do 2 eexists;
    (split; [reflexivity | split; [reflexivity | vm_compute; reflexivity]]).
Defined.

(** ** Several inventories *)

Lemma py_map_Forall2 {A B} (f : A -> Py.t B) l l' :
  Py.outcome (py_map f l) = Ok l' <->
  Forall2 (fun x y => Py.outcome (f x) = Ok y) l l'.
Proof.
  revert l'. induction l as [|x l IH]; intros l'; cbn [py_map].
  - split; [intros [= <-]; constructor | intros H; inversion H; reflexivity].
  - rewrite outcome_bind. split.
    + destruct (Py.outcome (f x)) as [y|] eqn:Hx; [|discriminate].
      rewrite outcome_bind.
      destruct (Py.outcome (py_map f l)) as [rest|] eqn:Hl; [|discriminate].
      intros [= <-]. constructor; [exact Hx | now apply IH].
    + intros H. inversion H as [|? y ? rest Hx Hl]; subst.
      rewrite Hx, outcome_bind. apply IH in Hl. now rewrite Hl.
Qed.

Section Inventories.

Variable limit : N.

(** X11: when [process_minion_data] succeeds it returns one classification
    per inventory, in order, each the result of [filter_by_version] on that
    inventory alone; the maximum version is parsed anew for every
    inventory. *)
Theorem process_minion_data_pointwise max_version data results :
  Py.outcome (process_minion_data limit max_version data) = Ok results ->
  Forall2 (fun d r => Py.outcome (filter_by_version limit max_version d) = Ok r)
          data results /\
  List.length results = List.length data /\
  Py.calls (process_minion_data limit max_version data) =
    List.concat
      (map (fun d => PyStr max_version ::
                     map (fun item => version_field (snd item))
                         (List.filter (fun item => responsive (snd item)) d))
           data).
Proof.
  intros Hok. pose proof (proj1 (py_map_Forall2 _ _ _) Hok) as H.
  split; [exact H|]. split; [symmetry; exact (Forall2_length H)|].
  unfold process_minion_data. rewrite py_map_calls.
  - f_equal. clear Hok. induction H as [|d r data results Hd _ IH]; [reflexivity|].
    cbn [map]. cbv beta. unfold classification.
    rewrite (filter_by_version_calls limit _ _ _ Hd).
    f_equal. exact IH.
  - clear Hok. induction H; constructor; [eexists; eassumption | assumption].
Qed.

(** X12: [process_minion_data] raises exactly when the classification of
    some inventory raises; the exception is that of the first such inventory
    and no result of the inventories before it is returned. *)
Theorem process_minion_data_first_failure max_version data e :
  Py.outcome (process_minion_data limit max_version data) = Raise e <->
  exists before d after,
    data = (before ++ d :: after)%list /\
    Forall (fun d' => succeeds (filter_by_version limit max_version d')) before /\
    Py.outcome (filter_by_version limit max_version d) = Raise e.
Proof. apply py_map_raise. Qed.

(** X13: a maximum version that does not parse makes [process_minion_data]
    raise as soon as there is an inventory, even an empty one; with no
    inventory at all it goes unnoticed and the result is the empty list. *)
Theorem bad_max_version_noticed_iff_data max_version data e :
  Py.outcome (parse_version limit (PyStr max_version)) = Raise e ->
  (data = [] -> process_minion_data limit max_version data = Py.ret []) /\
  (data <> [] ->
   Py.outcome (process_minion_data limit max_version data) = Raise e /\
   Py.calls (process_minion_data limit max_version data) = [PyStr max_version]).
Proof.
  intros Hmax. split; [intros ->; reflexivity|].
  destruct data as [|d data]; [congruence|]. intros _.
  assert (Hd : Py.outcome (filter_by_version limit max_version d) = Raise e /\
               Py.calls (filter_by_version limit max_version d) = [PyStr max_version]).
  { unfold filter_by_version.
    now rewrite outcome_bind, calls_bind, parse_version_calls, Hmax. }
  destruct Hd as [Ho Hc]. unfold process_minion_data. cbn [py_map].
  now rewrite outcome_bind, calls_bind, Ho, Hc.
Qed.

End Inventories.

Lemma process_minion_data_pointwise_witness :
  Forall2 (fun d r => Py.outcome (filter_by_version 4300 "3007.6" d) = Ok r)
          [sample_inventory; []]
          [([("h1", "3006.2")], [("h2", "3007.9")], ["h3"]); ([], [], [])] /\
  List.length [([("h1", "3006.2")], [("h2", "3007.9")], ["h3"]);
               (@nil (string * string), @nil (string * string), @nil string)] =
    List.length [sample_inventory; []] /\
  Py.calls (process_minion_data 4300 "3007.6" [sample_inventory; []]) =
    List.concat
      (map (fun d => PyStr "3007.6" ::
                     map (fun item => version_field (snd item))
                         (List.filter (fun item => responsive (snd item)) d))
           [sample_inventory; []]).
Proof.
  apply (process_minion_data_pointwise 4300 "3007.6" [sample_inventory; []]).
  vm_compute. reflexivity.
Defined.

Lemma bad_max_version_noticed_iff_data_witness :
  ([sample_inventory] = [] ->
   process_minion_data 4300 "latest" [sample_inventory] = Py.ret []) /\
  ([sample_inventory] <> [] ->
   Py.outcome (process_minion_data 4300 "latest" [sample_inventory]) = Raise ValueError /\
   Py.calls (process_minion_data 4300 "latest" [sample_inventory]) = [PyStr "latest"]).
Proof.
  apply (bad_max_version_noticed_iff_data 4300 "latest" [sample_inventory] ValueError).
  reflexivity.
Defined.

(** ** The name of a datacenter *)

Lemma split_on_cons sep c s :
  split_on sep (String c s) =
  if Ascii.eqb c sep then EmptyString :: split_on sep s
  else match split_on sep s with
       | p :: ps => String c p :: ps
       | [] => [String c EmptyString]
       end.
Proof.
  unfold split_on. simpl. destruct (split_pieces_on sep s) as [p ps].
  destruct (Ascii.eqb c sep); reflexivity.
Qed.

Lemma split_on_nonempty sep s : exists p ps, split_on sep s = p :: ps.
Proof. unfold split_on. destruct (split_pieces_on sep s) as [p ps]. eauto. Qed.

Lemma split_on_plain sep p :
  has_char sep p = false -> split_on sep p = [p].
Proof.
  induction p as [|c p IH]; cbn [has_char]; intros H; [reflexivity|].
  apply orb_false_iff in H as [Hc Hp].
  rewrite split_on_cons, Hc, (IH Hp). reflexivity.
Qed.

Lemma split_on_app sep p r :
  split_on sep (p ++ String sep r) = (split_on sep p ++ split_on sep r)%list.
Proof.
  induction p as [|c p IH].
  - rewrite app_nil_string, split_on_cons, Ascii.eqb_refl. reflexivity.
  - rewrite app_cons_string, !split_on_cons, IH.
    destruct (Ascii.eqb c sep); [reflexivity|].
    destruct (split_on_nonempty sep p) as (q & qs & ->). reflexivity.
Qed.

Lemma split_on_pieces sep s :
  Forall (fun p => has_char sep p = false) (split_on sep s).
Proof.
  induction s as [|c s IH]; [repeat constructor|].
  rewrite split_on_cons.
  destruct (Ascii.eqb c sep) eqn:Hc.
  - constructor; [reflexivity | exact IH].
  - destruct (split_on sep s) as [|p ps]; [repeat constructor; simpl; now rewrite Hc|].
    inversion IH; subst. constructor; [simpl; rewrite Hc; assumption | assumption].
Qed.

Lemma has_char_app c s t :
  has_char c (s ++ t) = has_char c s || has_char c t.
Proof.
  induction s as [|d s IH]; [reflexivity|].
  rewrite app_cons_string. cbn [has_char]. now rewrite IH, orb_assoc.
Qed.

Lemma last_piece_holds {A} (P : A -> Prop) q qs :
  Forall P (q :: qs) -> P (List.last qs q).
Proof.
  induction qs as [|x qs IH]; intros H; inversion H as [|? ? Hq Hqs]; subst; cbn;
    [assumption|].
  inversion Hqs; subst. destruct qs; [assumption|].
  apply IH. constructor; assumption.
Qed.

Lemma last_piece_snoc {A} (q : A) qs r : List.last (qs ++ [r]) q = r.
Proof. apply last_last. Qed.

(** X14: deriving the datacenter name from a file name never raises, and
    the name contains neither an underscore nor a dot. *)
Theorem datacenter_name_plain filename :
  exists name,
    datacenter_of filename = Py.ret name /\
    has_char "_" name = false /\ has_char "." name = false.
Proof.
  unfold datacenter_of.
  pose proof (split_on_pieces "_" filename) as Hp.
  destruct (split_on_nonempty "_" filename) as (q & qs & E). rewrite E in *.
  apply last_piece_holds in Hp. cbn [py_getitem_last].
  pose proof (split_dot_pieces (List.last qs q)) as Hd.
  pose proof (has_char_split_dot "_" _ Hp) as Hu.
  destruct (split_dot_nonempty (List.last qs q)) as (p0 & rest & E'). rewrite E' in *.
  exists p0. unfold Py.bind, Py.ret. rewrite E'. cbn.
  inversion Hd; inversion Hu; subst. auto.
Qed.

(** X15: for a file name made of anything, an underscore, a stem without
    underscore or dot, a dot and an extension without underscore, the name is
    the stem.  Without any underscore the name is what precedes the first
    dot of the whole file name: a directory is not removed, and a path that
    starts with a dot gives the empty name. *)
Theorem datacenter_name_is_stem stem rest :
  has_char "_" stem = false -> has_char "." stem = false ->
  has_char "_" rest = false ->
  (forall prefix,
     datacenter_of (prefix ++ "_" ++ stem ++ "." ++ rest) = Py.ret stem) /\
  datacenter_of (stem ++ "." ++ rest) = Py.ret stem.
Proof.
  intros Hs Hd Hr.
  assert (Hu : has_char "_" (stem ++ String "." rest) = false).
  { rewrite has_char_app, Hs. cbn. exact Hr. }
  assert (Hlast : Py.bind (Py.ret (stem ++ String "." rest))
                    (fun last_piece => py_getitem (split_dot last_piece) 0) =
                  Py.ret stem).
  { unfold Py.bind, Py.ret. rewrite (split_dot_app stem rest Hd). reflexivity. }
  split.
  - intros prefix. unfold datacenter_of.
    change (prefix ++ "_" ++ stem ++ "." ++ rest)
      with (prefix ++ String "_" (stem ++ String "." rest)).
    rewrite split_on_app, (split_on_plain "_" _ Hu).
    destruct (split_on_nonempty "_" prefix) as (q & qs & ->).
    cbn [app py_getitem_last]. rewrite last_piece_snoc. exact Hlast.
  - unfold datacenter_of.
    change (stem ++ "." ++ rest) with (stem ++ String "." rest).
    rewrite (split_on_plain "_" _ Hu). exact Hlast.
Qed.

Lemma datacenter_name_is_stem_witness :
  (forall prefix,
     datacenter_of (prefix ++ "_" ++ "data1" ++ "." ++ "json") = Py.ret "data1") /\
  datacenter_of ("data1" ++ "." ++ "json") = Py.ret "data1".
Proof. apply (datacenter_name_is_stem "data1" "json"); reflexivity. Defined.

(** ** Reports and the whole run *)

Lemma str_repeat_length c n : String.length (str_repeat c n) = n.
Proof. induction n as [|n IH]; cbn; [reflexivity | now rewrite IH]. Qed.

Lemma str_repeat_chars c d n : has_char d (str_repeat c n) = true -> c = d.
Proof.
  induction n as [|n IH]; cbn; [discriminate|].
  intros H. apply orb_true_iff in H as [H|H]; [now apply Ascii.eqb_eq | auto].
Qed.

Section Reports.

Variable limit : N.
Variable str_upper : string -> string.
Variable repr_entry : string * string -> string.
Variable parse_json : string -> option (list (string * py_value)).

(** X16: a report has five lines besides one line per listed minion, and
    ends with a rule of dashes that is twenty characters longer than the
    datacenter name. *)
Theorem generate_report_shape name upd high unr :
  let report := generate_report str_upper repr_entry name upd high unr in
  List.length report =
    (5 + List.length upd + List.length high + List.length unr)%nat /\
  exists rule,
    List.last report EmptyString = rule /\
    String.length rule = (20 + String.length name)%nat /\
    forall c, has_char c rule = true -> c = "-"%char.
Proof.
  cbv zeta. unfold generate_report. split.
  - rewrite !length_app, !length_map. cbn [List.length]. lia.
  - exists (str_repeat "-" (20 + String.length name)).
    split; [|split].
    + rewrite !app_assoc. apply last_last.
    + apply str_repeat_length.
    + intros c Hc. symmetry. exact (str_repeat_chars _ _ _ Hc).
Qed.

Lemma report_line_start name upd high unr line :
  In line (generate_report str_upper repr_entry name upd high unr) ->
  exists c rest, line = String c rest /\
                 (c = newline \/ c = " "%char \/ c = "-"%char).
Proof.
  unfold generate_report. rewrite !in_app_iff, !in_map_iff. cbn [In].
  intros [[<-|[]]|[[<-|[]]|[(x & <- & _)|[[<-|[]]|[(x & <- & _)|[[<-|[]]|
           [(x & <- & _)|[<-|[]]]]]]]]]; eauto 6.
Qed.

Lemma report_line_not_no_data name upd high unr :
  ~ In no_data_message (generate_report str_upper repr_entry name upd high unr).
Proof.
  intros H. apply report_line_start in H as (c & rest & E & [->|[->| ->]]);
    discriminate E.
Qed.

End Reports.

(** ** The further properties at work *)

Lemma classification_exceptions_witness :
  ValueError = ValueError \/ ValueError = AttributeError \/ ValueError = TypeError.
Proof.
  apply (classification_exceptions 4300 "3007.6" broken_inventory ValueError).
  vm_compute. reflexivity.
Defined.

Lemma type_error_iff_record_not_a_container_witness :
  (Py.outcome (filter_by_version 4300 "3007.6" silent_inventory) = Raise TypeError <->
   Exists (fun item => not_a_container (snd item)) silent_inventory) /\
  (Exists (fun item => not_a_container (snd item)) silent_inventory ->
   Py.calls (filter_by_version 4300 "3007.6" silent_inventory) = [PyStr "3007.6"]).
Proof.
  apply (type_error_iff_record_not_a_container 4300 "3007.6" silent_inventory).
  exists (3007, 6). reflexivity.
Defined.

Lemma list_sizes_add_up_witness :
  (List.length ["h3"] + List.length [("h1", "3006.2")] + List.length [("h2", "3007.9")]
   + List.length (List.filter (is_in_range 4300 (3007%Z, 6%Z)) sample_inventory)
   = List.length sample_inventory)%nat.
Proof.
  apply (list_sizes_add_up 4300 "3007.6" sample_inventory
           [("h1", "3006.2")] [("h2", "3007.9")] ["h3"] (3007, 6)).
  - exact sample_inventory_classified.
  - reflexivity.
Defined.

Lemma all_unresponsive_witness :
  Py.outcome (filter_by_version 4300 "3007.6" unversioned_inventory) =
    Ok ([], [], map fst unversioned_inventory) /\
  Py.calls (filter_by_version 4300 "3007.6" unversioned_inventory) = [PyStr "3007.6"].
Proof.
  apply (all_unresponsive 4300 "3007.6" unversioned_inventory).
  - exists (3007, 6). reflexivity.
  - repeat constructor; cbn [snd]; eexists; (split; [reflexivity | vm_compute; reflexivity]).
Defined.

(** ** The scanner against the language reference *)

Lemma digit_of_spec c :
  digit_of c = if is_digit c then Some (digit_value c) else None.
Proof. destruct c as [[] [] [] [] [] [] [] []]; reflexivity. Qed.

Lemma white_spec c : white c = is_space c.
Proof. destruct c as [[] [] [] [] [] [] [] []]; reflexivity. Qed.

Lemma digit_of_Some c d :
  digit_of c = Some d -> is_digit c = true /\ digit_value c = d.
Proof.
  rewrite digit_of_spec. destruct (is_digit c); [|discriminate].
  intros [= <-]. auto.
Qed.

Lemma digit_of_digit c : is_digit c = true -> digit_of c = Some (digit_value c).
Proof. intros H. now rewrite digit_of_spec, H. Qed.

Lemma digit_of_plain c d :
  digit_of c = Some d ->
  is_space c = false /\ Ascii.eqb c "-" = false /\ Ascii.eqb c "+" = false /\
  Ascii.eqb c "_" = false.
Proof.
  intros H. apply digit_of_Some in H as [H _].
  split; [now apply digit_not_space|].
  repeat split; apply digit_not_char; auto.
Qed.

Lemma blank_skip lead t :
  blank lead = true -> skip_spaces (lead ++ t) = skip_spaces t.
Proof.
  induction lead as [|c lead IH]; [reflexivity|].
  cbn [blank]. rewrite andb_true_iff, white_spec. intros [Hc Hl].
  rewrite app_cons_string. cbn [skip_spaces]. rewrite Hc. auto.
Qed.

Lemma skip_spaces_split s :
  exists lead, s = lead ++ skip_spaces s /\ blank lead = true.
Proof.
  induction s as [|c s (lead & E & Hl)]; [exists EmptyString; auto|].
  cbn [skip_spaces]. destruct (is_space c) eqn:Hc.
  - exists (String c lead). rewrite app_cons_string, <- E. split; [reflexivity|].
    cbn [blank]. now rewrite white_spec, Hc.
  - exists EmptyString. auto.
Qed.

Lemma skip_spaces_blank s : blank s = true <-> skip_spaces s = EmptyString.
Proof.
  induction s as [|c s IH]; [split; reflexivity|].
  cbn [blank skip_spaces]. rewrite white_spec.
  destruct (is_space c); cbn [andb]; [exact IH | split; discriminate].
Qed.

Lemma only_spaces_blank s : only_spaces s = blank s.
Proof.
  unfold only_spaces. destruct (blank s) eqn:Hb.
  - apply skip_spaces_blank in Hb. now rewrite Hb.
  - destruct (skip_spaces s) eqn:Hs; [|reflexivity].
    apply skip_spaces_blank in Hs. congruence.
Qed.

Lemma scan_digits_blank acc k trail :
  blank trail = true -> scan_digits acc k trail = Some (acc, k, trail).
Proof.
  destruct trail as [|c trail]; [reflexivity|].
  cbn [blank]. rewrite andb_true_iff, white_spec. intros [Hc _].
  cbn [scan_digits].
  destruct (is_digit c) eqn:Hd; [now rewrite (digit_not_space c Hd) in Hc|].
  destruct (Ascii.eqb_spec c "_") as [->|]; [discriminate Hc | reflexivity].
Qed.

Lemma digit_group_head text digits :
  digit_group text digits ->
  exists c text' d digits',
    text = String c text' /\ digits = d :: digits' /\ digit_of c = Some d.
Proof. destruct 1; eauto 8. Qed.

Lemma scan_digits_digit acc k c s d :
  digit_of c = Some d ->
  scan_digits acc k (String c s) = scan_digits (10 * acc + d) (k + 1) s.
Proof.
  intros H. apply digit_of_Some in H as [Hc <-]. cbn [scan_digits]. now rewrite Hc.
Qed.

Lemma scan_digits_under acc k c s d :
  digit_of c = Some d ->
  scan_digits acc k (String "_" (String c s)) = scan_digits acc k (String c s).
Proof.
  intros H. rewrite (scan_digits_digit _ _ _ _ _ H).
  apply digit_of_Some in H as [Hc <-]. cbn [scan_digits].
  change (is_digit "_") with false. change (Ascii.eqb "_" "_") with true.
  cbv iota. now rewrite Hc.
Qed.

Lemma positional_value_cons d digits acc :
  (10 * acc + d) * 10 ^ Z.of_nat (List.length digits) + positional_value digits =
  acc * 10 ^ Z.of_nat (List.length (d :: digits)) + positional_value (d :: digits).
Proof.
  cbn [List.length positional_value].
  rewrite Nat2Z.inj_succ, Z.pow_succ_r by lia. ring.
Qed.

(** The scanner reads every digit group and stops at the white space after it. *)
Lemma scan_digits_group text digits :
  digit_group text digits ->
  forall acc k trail,
    blank trail = true ->
    scan_digits acc k (text ++ trail) =
    Some (acc * 10 ^ Z.of_nat (List.length digits) + positional_value digits,
          (k + N.of_nat (List.length digits))%N, trail).
Proof.
  induction 1 as [c d Hc|c d text digits Hc Hg IH|c d text digits Hc Hg IH];
    intros acc k trail Ht.
  - rewrite app_cons_string, app_nil_string, (scan_digits_digit _ _ _ _ _ Hc).
    rewrite (scan_digits_blank _ _ _ Ht). cbn [List.length positional_value].
    apply f_equal. apply (f_equal2 pair); [|reflexivity].
    apply (f_equal2 pair); [cbn; lia | lia].
  - rewrite app_cons_string, (scan_digits_digit _ _ _ _ _ Hc), (IH _ _ _ Ht).
    rewrite positional_value_cons. cbn [List.length].
    apply f_equal. apply (f_equal2 pair); [|reflexivity].
    apply (f_equal2 pair); [reflexivity | lia].
  - rewrite !app_cons_string, (scan_digits_digit _ _ _ _ _ Hc).
    destruct (digit_group_head _ _ Hg) as (c' & text' & d' & digits' & -> & -> & Hc').
    rewrite app_cons_string, (scan_digits_under _ _ _ _ _ Hc'), <- app_cons_string.
    rewrite (IH _ _ _ Ht), positional_value_cons. cbn [List.length].
    apply f_equal. apply (f_equal2 pair); [|reflexivity].
    apply (f_equal2 pair); [reflexivity | lia].
Qed.

(** What the scanner has read after a digit is a digit group. *)
Lemma scan_digits_sound n : forall s c d acc k v m r,
  (String.length s <= n)%nat ->
  digit_of c = Some d ->
  scan_digits (10 * acc + d) (k + 1) s = Some (v, m, r) ->
  exists text digits,
    s = text ++ r /\ digit_group (String c text) (d :: digits) /\
    v = acc * 10 ^ Z.of_nat (List.length (d :: digits)) + positional_value (d :: digits) /\
    m = (k + N.of_nat (List.length (d :: digits)))%N.
Proof.
  assert (Hstop : forall s c d acc k, digit_of c = Some d ->
            exists text digits,
              s = text ++ s /\ digit_group (String c text) (d :: digits) /\
              10 * acc + d =
                acc * 10 ^ Z.of_nat (List.length (d :: digits)) + positional_value (d :: digits) /\
              (k + 1)%N = (k + N.of_nat (List.length (d :: digits)))%N).
  { intros s c d acc k Hc. exists EmptyString, []. split; [reflexivity|].
    split; [now constructor|]. cbn. split; lia. }
  induction n as [|n IH]; intros s c d acc k v m r Hlen Hc.
  - destruct s; [|cbn in Hlen; lia]. cbn. intros [= <- <- <-]. now apply Hstop.
  - destruct s as [|c2 s]; [cbn; intros [= <- <- <-]; now apply Hstop|].
    cbn [String.length] in Hlen. cbn [scan_digits].
    destruct (is_digit c2) eqn:Hd2.
    + intros H. apply (IH s c2 (digit_value c2)) in H;
        [|lia | now apply digit_of_digit].
      destruct H as (text & digits & -> & Hg & -> & ->).
      exists (String c2 text), (digit_value c2 :: digits).
      split; [reflexivity|]. split; [now apply group_next|].
      split; [apply positional_value_cons|].
      cbn [List.length]. lia.
    + destruct (Ascii.eqb_spec c2 "_") as [->|];
        [|intros [= <- <- <-]; now apply Hstop].
      destruct s as [|c3 s]; [discriminate|].
      destruct (is_digit c3) eqn:Hd3; [|discriminate].
      cbn [String.length] in Hlen.
      intros H. apply (IH s c3 (digit_value c3)) in H;
        [|lia | now apply digit_of_digit].
      destruct H as (text & digits & -> & Hg & -> & ->).
      exists (String "_" (String c3 text)), (digit_value c3 :: digits).
      split; [reflexivity|]. split; [now apply group_under|].
      split; [apply positional_value_cons|].
      cbn [List.length]. lia.
Qed.

Lemma within_digit_limit_spec limit n :
  within_digit_limit limit n <-> too_many_digits limit (N.of_nat n) = false.
Proof.
  unfold within_digit_limit, too_many_digits.
  destruct (N.ltb_spec 640 (N.of_nat n)), (N.ltb_spec 0 limit),
    (N.ltb_spec limit (N.of_nat n)); cbn; split; try reflexivity; try lia;
    try discriminate.
Qed.

Lemma take_sign_spec t :
  exists sgn k rest,
    t = sgn ++ rest /\ sign_of sgn k /\
    take_sign t = ((k <? 0), rest) /\
    (sgn = EmptyString ->
     match t with
     | String c _ => Ascii.eqb c "-" = false /\ Ascii.eqb c "+" = false
     | EmptyString => True
     end).
Proof.
  destruct t as [|c t]; [exists EmptyString, 1, EmptyString; repeat split; constructor|].
  unfold take_sign.
  destruct (Ascii.eqb_spec c "-") as [->|Hm].
  - exists "-", (-1), t. repeat split; [constructor | discriminate].
  - destruct (Ascii.eqb_spec c "+") as [->|Hp].
    + exists "+", 1, t. repeat split; [constructor | discriminate].
    + exists EmptyString, 1, (String c t). repeat split; constructor.
Qed.

(** [int] accepts exactly the integer literals within the digit limit, and
    yields the number they denote. *)
Lemma int_of_string_spec limit s z :
  int_of_string limit s = Some z <-> integer_of limit s z.
Proof.
  split.
  - unfold int_of_string. intros H.
    destruct (skip_spaces_split s) as (lead & Es & Hlead).
    destruct (take_sign_spec (skip_spaces s)) as (sgn & k & body & Et & Hsgn & Hts & _).
    rewrite Hts in H.
    destruct body as [|c rest]; [discriminate|].
    destruct (is_digit c) eqn:Hc; [|discriminate].
    destruct (scan_digits (digit_value c) 1 rest) as [[[v m] r]|] eqn:Hscan; [|discriminate].
    destruct (too_many_digits limit m) eqn:Hm; [discriminate|].
    rewrite only_spaces_blank in H.
    destruct (blank r) eqn:Hr; [|discriminate].
    change (digit_value c) with (10 * 0 + digit_value c) in Hscan at 1.
    change 1%N with (0 + 1)%N in Hscan.
    apply (scan_digits_sound _ _ c _ _ _ _ _ _ (Nat.le_refl _) (digit_of_digit c Hc)) in Hscan.
    destruct Hscan as (text & digits & -> & Hg & -> & ->).
    exists (List.length (digit_value c :: digits)). split.
    + exists lead, sgn, k, (String c text), (digit_value c :: digits), r.
      split; [now rewrite Es at 1; rewrite Et, app_cons_string|].
      repeat split; auto.
      injection H as <-.
      destruct Hsgn; cbn [Z.ltb Z.compare positional_value List.length]; ring.
    + apply within_digit_limit_spec. now rewrite N.add_0_l in Hm.
  - intros (n & (lead & sgn & k & text & digits & trail & -> & Hl & Ht & Hs & Hg & -> & ->) & Hn).
    apply within_digit_limit_spec in Hn.
    destruct (digit_group_head _ _ Hg) as (c & text' & d & digits' & -> & -> & Hc).
    destruct (digit_of_plain c d Hc) as (Hsp & Hmi & Hpl & _).
    pose proof (scan_digits_group _ _ Hg 0 0%N trail Ht) as Hscan.
    rewrite app_cons_string, (scan_digits_digit _ _ _ _ _ Hc) in Hscan.
    destruct (digit_of_Some c d Hc) as [Hd Hv].
    replace (10 * 0 + d) with (digit_value c) in Hscan by lia.
    rewrite !N.add_0_l in Hscan.
    unfold int_of_string. rewrite (blank_skip _ _ Hl).
    assert (Hts : skip_spaces (sgn ++ String c text' ++ trail) = sgn ++ String c text' ++ trail /\
                  take_sign (sgn ++ String c text' ++ trail) = ((k <? 0), String c (text' ++ trail))).
    { destruct Hs; rewrite ?app_nil_string, ?app_cons_string; cbn [skip_spaces take_sign];
        rewrite ?Hsp, ?Hmi, ?Hpl; auto. }
    destruct Hts as [-> ->]. rewrite Hd, Hscan, Hn, only_spaces_blank, Ht.
    f_equal. destruct Hs; cbn [Z.ltb Z.compare]; ring.
Qed.

(** ** The parser against its contract *)

Lemma join_dot_cons p q pieces :
  join_dot (p :: q :: pieces) = p ++ String "." (join_dot (q :: pieces)).
Proof. reflexivity. Qed.

Lemma split_dot_join pieces :
  pieces <> [] -> Forall dot_free pieces -> split_dot (join_dot pieces) = pieces.
Proof.
  induction pieces as [|p pieces IH]; [congruence|]. intros _ H.
  inversion H as [|? ? Hp Hrest]; subst.
  destruct pieces as [|q pieces]; [exact (split_dot_plain p Hp)|].
  rewrite join_dot_cons, (split_dot_app p _ Hp), IH;
    [reflexivity | discriminate | exact Hrest].
Qed.

Lemma split_dot_join_cons p0 rest :
  Forall dot_free (p0 :: rest) -> split_dot (join_dot (p0 :: rest)) = p0 :: rest.
Proof. apply split_dot_join. discriminate. Qed.

Lemma non_numeric_rejected limit p :
  non_numeric p -> int_of_string limit p = None.
Proof.
  intros H. destruct (int_of_string limit p) as [z|] eqn:E; [|reflexivity].
  apply int_of_string_spec in E as (n & Ht & _). exfalso. apply H. eauto.
Qed.

Lemma rejected_non_numeric p :
  int_of_string 0 p = None -> non_numeric p.
Proof.
  intros H (z & n & Ht).
  assert (E : int_of_string 0 p = Some z); [|congruence].
  apply int_of_string_spec. exists n. split; [exact Ht | now left].
Qed.

Lemma not_integer_rejected limit p :
  ~ (exists z, integer_of limit p z) <-> int_of_string limit p = None.
Proof.
  split.
  - intros H. destruct (int_of_string limit p) as [z|] eqn:E; [|reflexivity].
    exfalso. apply H. exists z. now apply int_of_string_spec.
  - intros H [z Hz]. apply int_of_string_spec in Hz. congruence.
Qed.

Section Contract.

Variable limit : N.

Lemma parse_version_text s major minor :
  Py.outcome (parse_version limit (PyStr s)) = Ok (major, minor) <->
  version_text limit s major minor.
Proof.
  rewrite parse_version_str. split.
  - intros H. destruct (split_dot_nonempty s) as (p0 & rest & E).
    exists p0, rest. pose proof (join_split_dot s) as Hj.
    pose proof (split_dot_pieces s) as Hp. rewrite E in *.
    split; [now symmetry|]. split; [exact Hp|].
    revert H. unfold version_of_pieces.
    destruct (int_of_string limit p0) as [a|] eqn:E0; [|discriminate].
    apply int_of_string_spec in E0.
    destruct rest as [|p1 tail]; [intros [= <- <-]; auto|].
    destruct (int_of_string limit p1) as [b|] eqn:E1; [|discriminate].
    apply int_of_string_spec in E1. intros [= <- <-]. auto.
  - intros (p0 & rest & -> & Hp & H0 & H1).
    rewrite (split_dot_join_cons _ _ Hp). unfold version_of_pieces.
    apply int_of_string_spec in H0. rewrite H0.
    destruct rest as [|p1 tail]; [now subst|].
    apply int_of_string_spec in H1. now rewrite H1.
Qed.

Lemma parse_version_pieces p0 rest :
  Forall dot_free (p0 :: rest) ->
  Py.outcome (parse_version limit (PyStr (join_dot (p0 :: rest)))) =
  version_of_pieces limit (p0 :: rest).
Proof.
  intros Hp. now rewrite parse_version_str, (split_dot_join_cons _ _ Hp).
Qed.

Lemma consumed_piece_rejected p0 rest :
  Forall dot_free (p0 :: rest) ->
  int_of_string limit p0 = None \/
  (exists p1 tail, rest = p1 :: tail /\ int_of_string limit p1 = None) ->
  Py.outcome (parse_version limit (PyStr (join_dot (p0 :: rest)))) = Raise ValueError.
Proof.
  intros Hp H. rewrite (parse_version_pieces _ _ Hp). unfold version_of_pieces.
  destruct H as [->|(p1 & tail & -> & H1)]; [reflexivity|].
  rewrite H1. destruct (int_of_string limit p0); reflexivity.
Qed.

(** C4, as the code has it: [parse_version] succeeds with (major, minor)
    exactly when the text, split at its dots, has a first piece that is an
    integer literal denoting major and within the digit limit of [int], and
    a second piece, if any, that is one denoting minor, the minor number
    being 0 when there is no second piece.  In every other case, among them
    a first or second piece that is not numeric, it raises [ValueError].
    "3007.6" gives (3007, 6), "5" gives (5, 0), and the empty string and
    "a.b" are rejected. *)
Theorem parse_version_major_minor :
  (forall s major minor,
     Py.outcome (parse_version limit (PyStr s)) = Ok (major, minor) <->
     version_text limit s major minor) /\
  (forall s,
     (forall major minor, ~ version_text limit s major minor) ->
     Py.outcome (parse_version limit (PyStr s)) = Raise ValueError) /\
  (forall p0 rest,
     Forall dot_free (p0 :: rest) ->
     non_numeric p0 \/ (exists p1 tail, rest = p1 :: tail /\ non_numeric p1) ->
     Py.outcome (parse_version limit (PyStr (join_dot (p0 :: rest)))) = Raise ValueError) /\
  Py.outcome (parse_version limit (PyStr "3007.6")) = Ok (3007, 6) /\
  Py.outcome (parse_version limit (PyStr "5")) = Ok (5, 0) /\
  Py.outcome (parse_version limit (PyStr "")) = Raise ValueError /\
  Py.outcome (parse_version limit (PyStr "a.b")) = Raise ValueError.
Proof.
  split; [exact parse_version_text|]. split.
  { intros s Hno.
    destruct (Py.outcome (parse_version limit (PyStr s))) as [[major minor]|e] eqn:E.
    - apply parse_version_text in E. now destruct (Hno major minor).
    - rewrite parse_version_str in E. unfold version_of_pieces in E.
      destruct (split_dot_nonempty s) as (p0 & rest & Es). rewrite Es in E.
      destruct (int_of_string limit p0); [|now symmetry].
      destruct rest as [|p1 tail]; [discriminate|].
      destruct (int_of_string limit p1); [discriminate | now symmetry]. }
  split.
  { intros p0 rest Hp H. apply (consumed_piece_rejected _ _ Hp).
    destruct H as [H|(p1 & tail & E & H)].
    - left. now apply non_numeric_rejected.
    - right. exists p1, tail. split; [exact E | now apply non_numeric_rejected]. }
  repeat split; reflexivity.
Qed.

(** C5, as the code has it: when the first piece of a version string, or
    its second piece if it has one, is not numeric, [parse_version] raises
    [ValueError]; it raises exactly when [int] does not accept one of these
    two pieces, and raises nothing else on a string.  The pieces after the
    second are not looked at: replacing them changes nothing. *)
Theorem failure_decided_by_first_two_pieces p0 rest :
  Forall dot_free (p0 :: rest) ->
  (non_numeric p0 \/ (exists p1 tail, rest = p1 :: tail /\ non_numeric p1) ->
   Py.outcome (parse_version limit (PyStr (join_dot (p0 :: rest)))) = Raise ValueError) /\
  (Py.outcome (parse_version limit (PyStr (join_dot (p0 :: rest)))) = Raise ValueError <->
   ~ (exists z, integer_of limit p0 z) \/
   exists p1 tail, rest = p1 :: tail /\ ~ (exists z, integer_of limit p1 z)) /\
  (forall e,
     Py.outcome (parse_version limit (PyStr (join_dot (p0 :: rest)))) = Raise e ->
     e = ValueError) /\
  (forall p1 tail tail',
     rest = p1 :: tail -> Forall dot_free tail' ->
     Py.outcome (parse_version limit (PyStr (join_dot (p0 :: p1 :: tail')))) =
     Py.outcome (parse_version limit (PyStr (join_dot (p0 :: rest))))).
Proof.
  intros Hp. split; [|split; [|split]].
  - intros H. apply (consumed_piece_rejected _ _ Hp).
    destruct H as [H|(p1 & tail & E & H)].
    + left. now apply non_numeric_rejected.
    + right. exists p1, tail. split; [exact E | now apply non_numeric_rejected].
  - rewrite (parse_version_pieces _ _ Hp), not_integer_rejected.
    unfold version_of_pieces. destruct (int_of_string limit p0) as [a|].
    + destruct rest as [|p1 tail].
      * split; [discriminate|]. intros [[=]|(? & ? & [=] & _)].
      * destruct (int_of_string limit p1) as [b|] eqn:E1.
        -- split; [discriminate|].
           intros [[=]|(? & ? & [= <- <-] & H)]. apply not_integer_rejected in H.
           congruence.
        -- split; [|reflexivity]. intros _. right. exists p1, tail.
           split; [reflexivity | now apply not_integer_rejected].
    + split; [auto | reflexivity].
  - intros e. rewrite (parse_version_pieces _ _ Hp). unfold version_of_pieces.
    destruct (int_of_string limit p0); [|now intros [= <-]].
    destruct rest as [|p1 tail]; [discriminate|].
    destruct (int_of_string limit p1); [discriminate | now intros [= <-]].
  - intros p1 tail tail' -> Ht.
    rewrite (parse_version_pieces _ _ Hp). rewrite parse_version_pieces; [reflexivity|].
    inversion Hp as [|? ? H0 H1]; subst. inversion H1; subst.
    repeat constructor; assumption.
Qed.


End Contract.

Lemma digit_group_repeat c d n :
  digit_of c = Some d -> digit_group (str_repeat c (S n)) (repeat d (S n)).
Proof.
  intros H. induction n as [|n IH]; [now constructor|].
  change (str_repeat c (S (S n))) with (String c (str_repeat c (S n))).
  change (repeat d (S (S n))) with (d :: repeat d (S n)). now apply group_next.
Qed.

Lemma all_digits_repeat c n : is_digit c = true -> all_digits (str_repeat c n) = true.
Proof. intros H. induction n as [|n IH]; cbn; [reflexivity | now rewrite H]. Qed.

Lemma app_empty_r (s : string) : s ++ EmptyString = s.
Proof.
  induction s as [|c s IH]; [reflexivity|]. now rewrite app_cons_string, IH.
Qed.

Lemma integer_text_repeat c d n :
  digit_of c = Some d ->
  integer_text (str_repeat c (S n)) (positional_value (repeat d (S n))) (S n).
Proof.
  intros H.
  exists EmptyString, EmptyString, 1, (str_repeat c (S n)), (repeat d (S n)), EmptyString.
  split; [now rewrite !app_nil_string, app_empty_r|].
  split; [reflexivity|]. split; [reflexivity|]. split; [constructor|].
  split; [now apply digit_group_repeat|].
  split; [now rewrite Z.mul_1_l | now rewrite repeat_length].
Qed.

(** A first piece of 4301 digits is an integer literal, and the interpreter
    with its usual limit of 4300 digits refuses it. *)
Lemma numeral_too_long_rejected :
  numeral (str_repeat "1" 4301) /\
  (exists z, integer_text (str_repeat "1" 4301) z 4301) /\
  Py.outcome (parse_version 4300 (PyStr (str_repeat "1" 4301))) = Raise ValueError /\
  ~ (forall limit s z n,
       dot_free s -> integer_text s z n ->
       Py.outcome (parse_version limit (PyStr s)) = Ok (z, 0)).
Proof.
  assert (Hn : numeral (str_repeat "1" 4301)).
  { split; [now apply all_digits_repeat | discriminate]. }
  pose proof (integer_text_repeat "1" 1 4300 eq_refl) as Ht.
  assert (Hr : Py.outcome (parse_version 4300 (PyStr (str_repeat "1" 4301))) =
               Raise ValueError) by (vm_compute; reflexivity).
  split; [exact Hn|]. split; [eexists; exact Ht|]. split; [exact Hr|].
  intros Hall. rewrite (Hall 4300%N _ _ _ (numeral_no_dot _ (proj1 Hn)) Ht) in Hr.
  discriminate Hr.
Qed.

Lemma parse_version_major_minor_witness :
  Py.outcome (parse_version 4300 (PyStr ("3x" ++ "." ++ "4"))) = Raise ValueError /\
  Py.outcome (parse_version 4300 (PyStr ("3" ++ "." ++ "4y" ++ "." ++ "5"))) =
    Raise ValueError.
Proof.
  split.
  - apply (proj1 (proj2 (proj2 (parse_version_major_minor 4300))) "3x" ["4"]).
    + repeat constructor.
    + left. apply rejected_non_numeric. reflexivity.
  - apply (proj1 (proj2 (proj2 (parse_version_major_minor 4300))) "3" ["4y"; "5"]).
    + repeat constructor.
    + right. exists "4y", ["5"]. split; [reflexivity|].
      apply rejected_non_numeric. reflexivity.
Defined.

(** A third piece that is not a number does not make [parse_version] fail. *)
Lemma later_piece_not_inspected :
  (exists p, In p (split_dot "3.4.x") /\ int_of_string 4300 p = None /\
             ~ numeral p /\ non_numeric p) /\
  Py.outcome (parse_version 4300 (PyStr "3.4.x")) = Ok (3, 4) /\
  ~ (forall s,
       (exists p, In p (split_dot s) /\ non_numeric p) ->
       exists e, Py.outcome (parse_version 4300 (PyStr s)) = Raise e).
Proof.
  assert (Hx : non_numeric "x") by (apply rejected_non_numeric; reflexivity).
  assert (Hin : In "x" (split_dot "3.4.x")) by (cbn; auto).
  split.
  { exists "x". split; [exact Hin|]. split; [reflexivity|].
    split; [intros [H _]; discriminate | exact Hx]. }
  split; [reflexivity|].
  intros Hall.
  destruct (Hall "3.4.x" (ex_intro _ "x" (conj Hin Hx))) as [e He]. discriminate.
Qed.

Lemma failure_decided_by_first_two_pieces_witness :
  Py.outcome (parse_version 4300 (PyStr "3.x.4")) = Raise ValueError.
Proof.
  apply (proj1 (failure_decided_by_first_two_pieces 4300 "3" ["x"; "4"]
                  ltac:(repeat constructor))).
  right. exists "x", ["4"]. split; [reflexivity|].
  apply rejected_non_numeric. reflexivity.
Defined.


(** ** The whole run *)

Section Run.

Variable limit : N.
Variable str_upper : string -> string.
Variable repr_entry : string * string -> string.
Variable parse_json : string -> option (list (string * py_value)).
Variable prints : string -> bool.

Lemma print_lines_in lines line :
  In line (fst (print_lines prints lines)) -> In line lines.
Proof.
  induction lines as [|l lines IH]; cbn [print_lines]; [intros []|].
  destruct (prints l); [|intros []].
  destruct (print_lines prints lines) as [printed status]. cbn [fst] in *.
  intros [<-|H]; [now left | right; auto].
Qed.

Lemma print_lines_status lines why :
  snd (print_lines prints lines) = Some why -> why = PrintFailed.
Proof.
  induction lines as [|l lines IH]; cbn [print_lines]; [discriminate|].
  destruct (prints l); [|now intros [= <-]].
  destruct (print_lines prints lines) as [printed status]. cbn [snd] in *. exact IH.
Qed.

Lemma print_lines_all lines :
  Forall (fun line => prints line = true) lines ->
  print_lines prints lines = (lines, None).
Proof.
  induction 1 as [|l lines Hl _ IH]; cbn [print_lines]; [reflexivity|].
  now rewrite Hl, IH.
Qed.

Lemma print_lines_stop before line after :
  Forall (fun l => prints l = true) before -> prints line = false ->
  print_lines prints (before ++ line :: after) = (before, Some PrintFailed).
Proof.
  induction 1 as [|l before Hl _ IH]; intros Hline; cbn [app print_lines].
  - now rewrite Hline.
  - now rewrite Hl, (IH Hline).
Qed.

Lemma print_lines_app first second :
  print_lines prints (first ++ second) =
  match print_lines prints first with
  | (printed, Some why) => (printed, Some why)
  | (printed, None) =>
      let (more, status) := print_lines prints second in
      ((printed ++ more)%list, status)
  end.
Proof.
  induction first as [|l first IH]; cbn [app print_lines].
  - now destruct (print_lines prints second).
  - destruct (prints l); [|reflexivity]. rewrite IH.
    destruct (print_lines prints first) as [printed [why|]]; [reflexivity|].
    now destruct (print_lines prints second).
Qed.

Lemma report_all_printed pairs :
  (forall why, snd (report_all str_upper repr_entry prints pairs) = Some why ->
               why = PrintFailed) /\
  ~ In no_data_message (fst (report_all str_upper repr_entry prints pairs)).
Proof.
  induction pairs as [|[filename [[upd high] unr]] pairs [IH1 IH2]]; cbn [report_all].
  - split; [discriminate | intros []].
  - destruct (datacenter_name_plain filename) as (name & -> & _).
    cbn [Py.outcome Py.ret snd].
    pose proof (print_lines_status (generate_report str_upper repr_entry name upd high unr))
      as Hs.
    pose proof (print_lines_in (generate_report str_upper repr_entry name upd high unr))
      as Hi.
    destruct (print_lines prints (generate_report str_upper repr_entry name upd high unr))
      as [printed [why|]]; cbn [fst snd] in *.
    + split; [intros ? [= <-]; now apply Hs|].
      intros H. exact (report_line_not_no_data _ _ _ _ _ _ (Hi _ H)).
    + destruct (report_all str_upper repr_entry prints pairs) as [more status].
      cbn [fst snd] in *. split; [exact IH1|].
      intros H. apply in_app_or in H as [H|H]; [|auto].
      exact (report_line_not_no_data _ _ _ _ _ _ (Hi _ H)).
Qed.

(** X17: when [main] ends because a file did not load or an inventory was
    not classified, it has printed nothing at all, not even the reports of
    the datacenters that were in order: every file is loaded and every
    inventory classified before the first report is printed.  (A run that
    ends because [print] raised has printed what came before.) *)
Theorem main_prints_nothing_on_failure why :
  snd (main limit str_upper repr_entry parse_json prints) = Some why ->
  why <> PrintFailed ->
  fst (main limit str_upper repr_entry parse_json prints) = [].
Proof.
  unfold main. destruct (get_minion_data parse_json JSON_FILES) as [[|d data]|];
    [| | reflexivity].
  - intros H Hw. now apply print_lines_status in H.
  - destruct (Py.outcome (process_minion_data limit MAX_VERSION (d :: data)))
      as [processed|e]; [|reflexivity].
    intros H Hw. now apply (proj1 (report_all_printed _)) in H.
Qed.

(** X18: [main] never prints the message about missing data, since the list
    of files is not empty; and when it returns normally every configured
    file was loaded and its inventory classified. *)
Theorem main_never_reports_no_data :
  ~ In no_data_message (fst (main limit str_upper repr_entry parse_json prints)) /\
  (snd (main limit str_upper repr_entry parse_json prints) = None ->
   Forall (fun file => exists d, parse_json file = Some d /\
                       succeeds (filter_by_version limit MAX_VERSION d))
          JSON_FILES).
Proof.
  unfold main. destruct (get_minion_data parse_json JSON_FILES) as [data|] eqn:Hload.
  - pose proof (length_mapM _ _ _ Hload) as Hlen.
    destruct data as [|d data]; [discriminate Hlen|].
    destruct (Py.outcome (process_minion_data limit MAX_VERSION (d :: data)))
      as [processed|e] eqn:Hproc.
    + split; [apply report_all_printed|]. intros _.
      apply mapM_Some in Hload. apply py_map_Forall2 in Hproc.
      clear Hlen. revert Hload processed Hproc. generalize (d :: data). generalize JSON_FILES.
      induction 1 as [|file inv files invs Hf _ IH]; intros processed Hproc;
        [constructor|].
      inversion Hproc; subst. constructor; [|eauto].
      exists inv. split; [exact Hf | eexists; eassumption].
    + split; [intros [] | discriminate].
  - split; [intros [] | discriminate].
Qed.

(** X19: when the three configured files load and their inventories are
    classified, [main] prints the lines of the reports of "data1", "data2"
    and "data3", in this order, each report built from the classification of
    its own file.  If standard output takes every line, it prints them all
    and returns normally; otherwise it prints the lines before the first one
    that standard output refuses and ends with the exception of [print]. *)
Theorem main_prints_three_reports d1 d2 d3 u1 h1 n1 u2 h2 n2 u3 h3 n3 :
  parse_json "all_minion_data1.json" = Some d1 ->
  parse_json "all_minion_data2.json" = Some d2 ->
  parse_json "all_minion_data3.json" = Some d3 ->
  Py.outcome (filter_by_version limit "3007.6" d1) = Ok (u1, h1, n1) ->
  Py.outcome (filter_by_version limit "3007.6" d2) = Ok (u2, h2, n2) ->
  Py.outcome (filter_by_version limit "3007.6" d3) = Ok (u3, h3, n3) ->
  let lines :=
    (generate_report str_upper repr_entry "data1" u1 h1 n1
     ++ generate_report str_upper repr_entry "data2" u2 h2 n2
     ++ generate_report str_upper repr_entry "data3" u3 h3 n3)%list in
  (Forall (fun line => prints line = true) lines ->
   main limit str_upper repr_entry parse_json prints = (lines, None)) /\
  (forall before line after,
     lines = (before ++ line :: after)%list ->
     Forall (fun l => prints l = true) before -> prints line = false ->
     main limit str_upper repr_entry parse_json prints = (before, Some PrintFailed)).
Proof.
  intros L1 L2 L3 C1 C2 C3 lines.
  assert (Hmain : main limit str_upper repr_entry parse_json prints =
                  print_lines prints lines).
  { unfold main.
    assert (Hload : get_minion_data parse_json JSON_FILES = Some [d1; d2; d3]).
    { apply mapM_Some. repeat constructor; assumption. }
    rewrite Hload.
    assert (Hproc : Py.outcome (process_minion_data limit MAX_VERSION [d1; d2; d3]) =
                    Ok [(u1, h1, n1); (u2, h2, n2); (u3, h3, n3)]).
    { apply py_map_Forall2. repeat constructor; assumption. }
    rewrite Hproc. cbn [combine JSON_FILES report_all].
    change (Py.outcome (datacenter_of "all_minion_data1.json")) with (@Ok string "data1").
    change (Py.outcome (datacenter_of "all_minion_data2.json")) with (@Ok string "data2").
    change (Py.outcome (datacenter_of "all_minion_data3.json")) with (@Ok string "data3").
    cbv iota beta. subst lines. rewrite !print_lines_app.
    destruct (print_lines prints (generate_report str_upper repr_entry "data1" u1 h1 n1))
      as [p1 [w1|]]; [reflexivity|].
    destruct (print_lines prints (generate_report str_upper repr_entry "data2" u2 h2 n2))
      as [p2 [w2|]]; [reflexivity|].
    destruct (print_lines prints (generate_report str_upper repr_entry "data3" u3 h3 n3))
      as [p3 [w3|]]; [now rewrite app_assoc | now rewrite app_nil_r, app_assoc]. }
  rewrite Hmain. split.
  - apply print_lines_all.
  - intros before line after -> Hb Hl. now apply print_lines_stop.
Qed.

End Run.

Lemma main_prints_nothing_on_failure_witness :
  fst (main 4300 sample_upper sample_repr broken_files ascii_only) = [].
Proof.
  apply (main_prints_nothing_on_failure 4300 sample_upper sample_repr broken_files
           ascii_only (Raised ValueError)).
  - vm_compute. reflexivity.
  - discriminate.
Defined.

Lemma main_never_reports_no_data_witness :
  Forall (fun file => exists d, sample_files file = Some d /\
                      succeeds (filter_by_version 4300 MAX_VERSION d))
         JSON_FILES.
Proof.
  apply (proj2 (main_never_reports_no_data 4300 sample_upper sample_repr sample_files
                  ascii_only)).
  vm_compute. reflexivity.
Defined.

Lemma main_prints_three_reports_witness :
  main 4300 sample_upper sample_repr sample_files ascii_only =
  ((generate_report sample_upper sample_repr "data1"
      [("h1", "3006.2")] [("h2", "3007.9")] ["h3"]
    ++ generate_report sample_upper sample_repr "data2" [] [] []
    ++ generate_report sample_upper sample_repr "data3"
         [("h1", "3006.2")] [("h2", "3007.9")] ["h3"])%list,
   None).
Proof.
  apply (proj1 (main_prints_three_reports 4300 sample_upper sample_repr sample_files
                  ascii_only sample_inventory [] detailed_inventory
                  [("h1", "3006.2")] [("h2", "3007.9")] ["h3"] [] [] []
                  [("h1", "3006.2")] [("h2", "3007.9")] ["h3"]
                  eq_refl eq_refl eq_refl
                  sample_inventory_classified eq_refl
                  ltac:(vm_compute; reflexivity))).
  vm_compute. repeat constructor.
Defined.

(** A minion whose name standard output refuses stops the run in the middle
    of the second report: the first report and the lines before that name
    are printed, the third report is not. *)
Lemma main_stops_where_print_raises :
  snd (main 4300 sample_upper sample_repr accented_files ascii_only) = Some PrintFailed /\
  fst (main 4300 sample_upper sample_repr accented_files ascii_only) =
    (generate_report sample_upper sample_repr "data1"
       [("h1", "3006.2")] [("h2", "3007.9")] ["h3"]
     ++ firstn 4 (generate_report sample_upper sample_repr "data2" [] []
                    [("caf" ++ String "233" EmptyString)%string]))%list.
Proof. split; vm_compute; reflexivity. Qed.
